(** * petitdb: a table store staged over a shelve backend

    Shallow embedding of [petitdb.py] (classes [SmallDB] and [MemDB]) and
    the properties of its staging / commit / rollback protocol.

    The Python methods mutate [self] and the shelve file and may raise, so
    they are embedded in a state-and-exception monad whose state is the
    instance together with the disk.  A raised exception carries the state
    reached at the raise: whether a rejected call left the instance alone is
    something to prove, not something the model grants.

    What the embedding takes for granted:
    - stored objects are values: no two records share one mutable object,
      and a caller does not change an object after handing it over;
    - a shelf holds tables only, as [SmallDB] writes them.  The model puts
      a write to a shelf on the disk at once, where a dbm backend may keep
      it in the handle until [close]; what a store opened on the path finds
      there is therefore stated only once the writing handle was closed, or
      where it wrote nothing;
    - [shelve.open] succeeds on a path that holds a shelf or nothing, also
      when another handle on the path is still open;
    - a Python [dict] is gone through in an order of its own.  The model
      goes through a dict in the order of [elements] and [map_to_list]; what
      is stated of a listing holds of every order;
    - what [append] and [add] print is not kept. *)

From Stdlib Require Import ZArith String Ascii List.
From stdpp Require Import base option gmap strings list fin_maps.

Set Warnings "-register-all,-clear-no-such-hyp".

Local Open Scope string_scope.

(** ** Stored values

    Records hold arbitrary picklable Python objects.  The embedding keeps the
    builtin kinds that [append] and [add] tell apart. *)

Inductive value : Type :=
  | VNone
  | VInt (n : Z)
  | VStr (s : string)
  | VList (l : list value).

(** A table is a [dict] from keys to objects; so is the staging area,
    from table names to tables. *)
Abbreviation table := (gmap string value).
Abbreviation tables_t := (gmap string table).

(** ** Exceptions

    The six classes of the module and the builtin ones its code can meet. *)

Inductive exn : Type :=
  | DBError
  | DBInitializationError
  | TableReferenceError
  | DBKeyError
  | DuplicateKeyError
  | ReadOnlyDatabaseError
  | KeyError
  | AttributeError
  | TypeError
  | ValueError
  | RuntimeError
  | DbmError.

Global Instance exn_eq_dec : EqDecision exn.
Proof. solve_decision. Defined.

(** [parent e] is the base class of [e] when it is one of the module's own. *)
Definition parent (e : exn) : option exn :=
  match e with
  | DBInitializationError | TableReferenceError | DBKeyError
  | ReadOnlyDatabaseError => Some DBError
  | DuplicateKeyError => Some DBKeyError
  | _ => None
  end.

(** [isinstance e c]: an [except c] clause catches [e]. *)
Definition isinstance (e c : exn) : bool :=
  bool_decide (e = c)
  || bool_decide (parent e = Some c)
  || bool_decide (parent e ≫= parent = Some c).

(** ** The disk and shelve

    A path holds a shelf (a persistent dict from table names to pickled
    tables) or something [shelve.open] cannot read.  A path that holds
    nothing is created as an empty shelf on opening (flag ['c']). *)

Inductive file : Type :=
  | Shelf (s : gmap string (gmap string value))
  | NotAShelf.

Abbreviation disk_t := (gmap string file).

(** An open [shelve] object: the path it was opened on, and whether
    [close] was called on it. *)
Record handle : Type := Handle { path : string; closed : bool }.

(** ** Instances *)

Record object : Type := Object {
  mode : string;
  dbfile : option string;
  db : option handle;              (* absent on a MemDB *)
  db_ref : gmap string (gmap string value);
  log : gset string                (* dict whose values are all '' *)
}.

Record state : Type := State { self : object; disk : gmap string file }.

Definition set_mode (m : string) (o : object) : object :=
  Object m (dbfile o) (db o) (db_ref o) (log o).
Definition set_dbfile (f : option string) (o : object) : object :=
  Object (mode o) f (db o) (db_ref o) (log o).
Definition set_db (h : option handle) (o : object) : object :=
  Object (mode o) (dbfile o) h (db_ref o) (log o).
Definition set_db_ref (r : gmap string (gmap string value)) (o : object) : object :=
  Object (mode o) (dbfile o) (db o) r (log o).
Definition set_log (l : gset string) (o : object) : object :=
  Object (mode o) (dbfile o) (db o) (db_ref o) l.

(** ** The monad *)

Inductive outcome (A : Type) : Type :=
  | Ok (a : A)
  | Raise (e : exn).
Arguments Ok {A} a.
Arguments Raise {A} e.

Definition M (A : Type) : Type := state → outcome A * state.

Definition ret {A} (a : A) : M A := λ st, (Ok a, st).
Definition raise {A} (e : exn) : M A := λ st, (Raise e, st).
Definition bind {A B} (m : M A) (k : A → M B) : M B :=
  λ st, match m st with
        | (Ok a, st') => k a st'
        | (Raise e, st') => (Raise e, st')
        end.
Definition get : M state := λ st, (Ok st, st).
Definition modify_self (f : object → object) : M unit :=
  λ st, (Ok tt, State (f (self st)) (disk st)).
Definition modify_disk (f : gmap string file → gmap string file) : M unit :=
  λ st, (Ok tt, State (self st) (f (disk st))).

(** [try m except e: h e] *)
Definition try_except {A} (m : M A) (h : exn → M A) : M A :=
  λ st, match m st with
        | (Ok a, st') => (Ok a, st')
        | (Raise e, st') => h e st'
        end.

Declare Scope py_scope.
Delimit Scope py_scope with py.
Notation "x ← m ; k" := (bind m (λ x, k))
  (at level 20, m at level 100, k at level 200, only parsing) : py_scope.
Notation "m ;; k" := (bind m (λ _, k))
  (at level 100, k at level 200, only parsing, right associativity) : py_scope.
Local Open Scope py_scope.

(** [for x in xs: body x] *)
Fixpoint for_each {A} (xs : list A) (body : A → M unit) : M unit :=
  match xs with
  | [] => ret tt
  | x :: xs' => body x ;; for_each xs' body
  end.

(** [lift r]: an operation on values that returns or raises. *)
Definition lift {A} (r : outcome A) : M A :=
  match r with Ok a => ret a | Raise e => raise e end.

(** Deep copies and pickling give back an equal value; values of the
    embedding are immutable, so both are the identity. *)
Definition deepcopy {A} (x : A) : A := x.

(** [construct init]: the call [C(args)], which runs [C.__init__] on a new
    instance and hands it over only if no exception escapes. *)
Definition blank : object := Object "" None None ∅ ∅.

Definition construct (init : M unit) : M object :=
  λ st, match init (State blank (disk st)) with
        | (Ok _, st') => (Ok (self st'), State (self st) (disk st'))
        | (Raise e, st') => (Raise e, State (self st) (disk st'))
        end.

(** [call_on o m]: the method call [o.m()] on another instance [o]; gives the
    result and [o] as the call left it. *)
Definition call_on {A} (o : object) (m : M A) : M (A * object) :=
  λ st, match m (State o (disk st)) with
        | (Ok a, st') => (Ok (a, self st'), State (self st) (disk st'))
        | (Raise e, st') => (Raise e, State (self st) (disk st'))
        end.

(** ** Operations of builtin objects *)

(** [tmp_obj.append(obj)]: only lists have the method. *)
Definition obj_append (tmp_obj obj : value) : outcome value :=
  match tmp_obj with
  | VList l => Ok (VList (l ++ [obj]))
  | _ => Raise AttributeError
  end.

(** [tmp_obj += obj] *)
Definition obj_iadd (tmp_obj obj : value) : outcome value :=
  match tmp_obj, obj with
  | VInt a, VInt b => Ok (VInt (a + b))
  | VStr a, VStr b => Ok (VStr (a ++ b))
  | VList a, VList b => Ok (VList (a ++ b))
  | VList a, VStr b =>
      Ok (VList (a ++ map (λ c, VStr (String c EmptyString)) (list_ascii_of_string b)))
  | _, _ => Raise TypeError
  end.

(** ** shelve *)

Module shelve.

(** [shelve.open(p)] *)
Definition open (p : string) : M handle :=
  st ← get;
  match disk st !! p with
  | None => modify_disk (<[p := Shelf ∅]>) ;; ret (Handle p false)
  | Some (Shelf _) => ret (Handle p false)
  | Some NotAShelf => raise DbmError
  end.

(** The dict behind an open shelf; a closed one refuses every access. *)
Definition dict (h : handle) : M (gmap string (gmap string value)) :=
  if closed h then raise ValueError
  else st ← get;
       match disk st !! path h with
       | Some (Shelf s) => ret s
       | _ => raise DbmError
       end.

(** [list(h)], the keys that [for key in h] goes through *)
Definition keys (h : handle) : M (list string) :=
  s ← dict h; ret (elements (dom s)).

(** [h[key]] *)
Definition getitem (h : handle) (key : string) : M (gmap string value) :=
  s ← dict h;
  match s !! key with
  | Some t => ret t
  | None => raise KeyError
  end.

(** [h[key] = t] *)
Definition setitem (h : handle) (key : string) (t : gmap string value) : M unit :=
  s ← dict h; modify_disk (<[path h := Shelf (<[key := t]> s)]>).

(** [del h[key]] *)
Definition delitem (h : handle) (key : string) : M unit :=
  s ← dict h;
  match s !! key with
  | Some _ => modify_disk (<[path h := Shelf (delete key s)]>)
  | None => raise KeyError
  end.

(** [h.close()] *)
Definition close (h : handle) : handle := Handle (path h) true.

End shelve.

(** [self.db]: the attribute is missing on an instance that never opened
    a shelf. *)
Definition self_db : M handle :=
  st ← get;
  match db (self st) with
  | Some h => ret h
  | None => raise AttributeError
  end.

(** [self.log[table_name] = ''] *)
Definition mark (table_name : string) (o : object) : object :=
  set_log ({[table_name]} ∪ log o) o.

Definition read_only : M bool :=
  st ← get; ret (bool_decide (mode (self st) = "ro")).

(** ** class SmallDB *)

Module SmallDB.

(** Body of the loop of [__open__]. *)
Definition open_load (key : string) : M unit :=
  h ← self_db;
  t ← shelve.getitem h key;
  modify_self (λ o, set_db_ref (<[key := t]> (db_ref o)) o).

Definition __open__ : M unit :=
  st ← get;
  match dbfile (self st) with
  | Some f =>
      try_except
        (h ← shelve.open f;
         modify_self (set_db (Some h)) ;;
         modify_self (set_db_ref ∅) ;;
         h ← self_db;
         ks ← shelve.keys h;
         for_each ks open_load)
        (λ _, raise DBInitializationError)
  | None => raise DBInitializationError
  end ;;
  modify_self (set_log ∅) ;;
  ro ← read_only;
  if ro then h ← self_db; modify_self (set_db (Some (shelve.close h)))
  else ret tt.

(** [self.__open__()] is resolved on the class of the instance, so the
    constructor takes the method it ends with. *)
Definition __init__ (self__open__ : M unit)
    (dbf : option string) (mode : string) : M unit :=
  (if bool_decide (mode ≠ "ro") && bool_decide (mode ≠ "rw")
   then raise DBInitializationError
   else modify_self (set_mode mode)) ;;
  modify_self (set_dbfile dbf) ;;
  self__open__.

(** [SmallDB(dbf, mode)] *)
Definition new (dbf : option string) (mode : string) : M object :=
  construct (__init__ __open__ dbf mode).

Definition create_table (table_name : string) : M unit :=
  ro ← read_only;
  if ro then raise ReadOnlyDatabaseError
  else
    modify_self (λ o, set_db_ref (<[table_name := ∅]> (db_ref o)) o) ;;
    modify_self (mark table_name).

(** With a key the object stored under it; without, the list of the
    objects of the table. *)
Definition select (table_name : string) (key : option string) : M value :=
  st ← get;
  match key with
  | Some key =>
      match db_ref (self st) !! table_name with
      | None => raise TableReferenceError
      | Some table =>
          match table !! key with
          | Some v => ret v
          | None => raise DBKeyError
          end
      end
  | None =>
      match db_ref (self st) !! table_name with
      | None => raise TableReferenceError
      | Some table => ret (VList (map_to_list table).*2)
      end
  end.

(** [insert] calls itself once the missing table is created; [fuel]
    bounds the depth of the calls. *)
Fixpoint insert_rec (fuel : nat) (table_name key : string) (obj : value)
    : M unit :=
  match fuel with
  | O => raise RuntimeError
  | S fuel' =>
      ro ← read_only;
      if ro then raise ReadOnlyDatabaseError
      else
        st ← get;
        match db_ref (self st) !! table_name with
        | None =>
            create_table table_name ;;
            insert_rec fuel' table_name key obj
        | Some table =>
            match table !! key with
            | None =>
                modify_self (λ o,
                  set_db_ref (<[table_name := <[key := obj]> table]> (db_ref o)) o)
            | Some _ => raise DuplicateKeyError
            end ;;
            modify_self (mark table_name)
        end
  end.

(** Two levels are all the method ever uses, see [insert_rec_fuel]. *)
Definition insert : string → string → value → M unit := insert_rec 2.

Definition keys (table_name : string) : M (list string) :=
  st ← get;
  match db_ref (self st) !! table_name with
  | Some table => ret (elements (dom table))
  | None => raise TableReferenceError
  end.

Definition tables : M (list string) :=
  st ← get; ret (elements (dom (db_ref (self st)))).

Definition update (table_name key : string) (obj : value) : M unit :=
  ro ← read_only;
  if ro then raise ReadOnlyDatabaseError
  else
    st ← get;
    match db_ref (self st) !! table_name with
    | None => raise TableReferenceError
    | Some table =>
        modify_self (λ o,
          set_db_ref (<[table_name := <[key := obj]> table]> (db_ref o)) o) ;;
        modify_self (mark table_name)
    end.

(** The three [except] clauses that [append] and [add] share; the last
    one prints the exception and goes on. *)
Definition handler (e : exn) : M unit :=
  if isinstance e DBKeyError then raise DBKeyError
  else if isinstance e TableReferenceError then raise TableReferenceError
  else if isinstance e AttributeError then ret tt
  else raise e.

Definition append (table_name key : string) (obj : value) : M unit :=
  ro ← read_only;
  if ro then raise ReadOnlyDatabaseError
  else
    try_except
      (tmp_obj ← select table_name (Some key);
       tmp_obj ← lift (obj_append tmp_obj obj);
       update table_name key tmp_obj)
      handler ;;
    modify_self (mark table_name).

Definition add (table_name key : string) (obj : value) : M unit :=
  ro ← read_only;
  if ro then raise ReadOnlyDatabaseError
  else
    try_except
      (tmp_obj ← select table_name (Some key);
       tmp_obj ← lift (obj_iadd tmp_obj obj);
       update table_name key tmp_obj)
      handler ;;
    modify_self (mark table_name).

Definition remove (table_name key : string) : M unit :=
  ro ← read_only;
  if ro then raise ReadOnlyDatabaseError
  else
    st ← get;
    match db_ref (self st) !! table_name with
    | None => raise TableReferenceError
    | Some table =>
        match table !! key with
        | Some _ =>
            modify_self (λ o,
              set_db_ref (<[table_name := delete key table]> (db_ref o)) o)
        | None => raise DBKeyError
        end ;;
        modify_self (mark table_name)
    end.

Definition remove_table (table_name : string) : M unit :=
  ro ← read_only;
  if ro then raise ReadOnlyDatabaseError
  else
    st ← get;
    match db_ref (self st) !! table_name with
    | Some _ =>
        modify_self (λ o, set_db_ref (delete table_name (db_ref o)) o)
    | None => raise TableReferenceError
    end ;;
    modify_self (mark table_name).

(** Body of the first loop of [save]. *)
Definition save_prune (key : string) : M unit :=
  st ← get;
  if bool_decide (key ∈ log (self st))
     && bool_decide (key ∉ dom (db_ref (self st)))
  then
    h ← self_db;
    shelve.delitem h key ;;
    modify_self (λ o, set_log (log o ∖ {[key]}) o)
  else ret tt.

(** Body of the second loop of [save]. *)
Definition save_write (key : string) : M unit :=
  st ← get;
  match db_ref (self st) !! key with
  | Some table => h ← self_db; shelve.setitem h key table
  | None => raise KeyError
  end.

Definition save : M unit :=
  ro ← read_only;
  if ro then raise ReadOnlyDatabaseError
  else
    h ← self_db;
    ks ← shelve.keys h;
    for_each ks save_prune ;;
    st ← get;
    for_each (elements (log (self st))) save_write.

(** [self.__init__] is resolved on the class of the instance. *)
Definition drop (self__init__ : option string → string → M unit) : M unit :=
  ro ← read_only;
  if ro then raise ReadOnlyDatabaseError
  else st ← get; self__init__ (dbfile (self st)) "rw".

(** [MemDB] overrides [close] as well as [save], so the [self.save()]
    below only ever runs [SmallDB.save]. *)
Definition close : M unit :=
  st ← get;
  (if bool_decide (size (log (self st)) ≠ 0%nat) then save else ret tt) ;;
  h ← self_db;
  modify_self (set_db (Some (shelve.close h))).

End SmallDB.

(** ** class MemDB(SmallDB) *)

Module MemDB.

Definition __open__ : M unit :=
  st ← get;
  match dbfile (self st) with
  | Some f =>
      small_db ← SmallDB.new (Some f) "rw";
      modify_self (set_db_ref (deepcopy (db_ref small_db))) ;;
      _ ← call_on small_db SmallDB.close;
      ret tt
  | None => modify_self (set_db_ref ∅)
  end ;;
  modify_self (set_log ∅).

Definition __init__ (dbf : option string) (mode : string) : M unit :=
  SmallDB.__init__ __open__ dbf mode.

(** [MemDB(dbf, mode)] *)
Definition new (dbf : option string) (mode : string) : M object :=
  construct (__init__ dbf mode).

Definition replicate_from_smalldb (dbf : option string) : M unit :=
  st ← get;
  match dbf, dbfile (self st) with
  | None, Some f => __init__ (Some f) "rw"
  | _, _ => __init__ dbf "rw"
  end.

Definition replicate_to_smalldb (dbf : option string) : M unit :=
  st ← get;
  smalldb ← match dbf with
            | Some f => SmallDB.new (Some f) "rw"
            | None => SmallDB.new (dbfile (self st)) "rw"
            end;
  let smalldb := set_db_ref (deepcopy (db_ref (self st))) smalldb in
  let smalldb := set_log (deepcopy (log (self st))) smalldb in
  r ← call_on smalldb SmallDB.save;
  r ← call_on r.2 SmallDB.close;
  ret tt.

Definition save : M unit := ret tt.

Definition close : M unit := ret tt.

(** Inherited methods. *)
Definition create_table := SmallDB.create_table.
Definition select := SmallDB.select.
Definition insert := SmallDB.insert.
Definition keys := SmallDB.keys.
Definition tables := SmallDB.tables.
Definition update := SmallDB.update.
Definition append := SmallDB.append.
Definition add := SmallDB.add.
Definition remove := SmallDB.remove.
Definition remove_table := SmallDB.remove_table.
Definition drop : M unit := SmallDB.drop __init__.

End MemDB.

(** [drop] on a [SmallDB] instance. *)
Definition SmallDB_drop : M unit := SmallDB.drop (SmallDB.__init__ SmallDB.__open__).

(** ** Calls

    The methods that change data, as a caller names them. *)

Inductive mutator : Type :=
  | CreateTable (table_name : string)
  | Insert (table_name key : string) (obj : value)
  | Update (table_name key : string) (obj : value)
  | Append (table_name key : string) (obj : value)
  | Add (table_name key : string) (obj : value)
  | Remove (table_name key : string)
  | RemoveTable (table_name : string)
  | Save
  | Drop.

Definition SmallDB_call (c : mutator) : M unit :=
  match c with
  | CreateTable t => SmallDB.create_table t
  | Insert t k v => SmallDB.insert t k v
  | Update t k v => SmallDB.update t k v
  | Append t k v => SmallDB.append t k v
  | Add t k v => SmallDB.add t k v
  | Remove t k => SmallDB.remove t k
  | RemoveTable t => SmallDB.remove_table t
  | Save => SmallDB.save
  | Drop => SmallDB_drop
  end.

Definition MemDB_call (c : mutator) : M unit :=
  match c with
  | CreateTable t => MemDB.create_table t
  | Insert t k v => MemDB.insert t k v
  | Update t k v => MemDB.update t k v
  | Append t k v => MemDB.append t k v
  | Add t k v => MemDB.add t k v
  | Remove t k => MemDB.remove t k
  | RemoveTable t => MemDB.remove_table t
  | Save => MemDB.save
  | Drop => MemDB.drop
  end.

(** A caller goes on after an exception it caught: [exec call cs st] is the
    state after the calls [cs], whatever each of them returned. *)
Definition exec (call : mutator → M unit) (cs : list mutator) (st : state) : state :=
  foldl (λ st c, (call c st).2) st cs.

(** ** Sessions

    [script new body]: build an instance with [new], run [body] on it, and
    give back the instance as [body] left it. *)
Definition script (new : M object) (body : M unit) : M object :=
  o ← new; r ← call_on o body; ret r.2.

(** The state a program starts from: no instance of its own yet, and the
    disk as given. *)
Definition boot (d : gmap string file) : state := State blank d.

(** ** Vocabulary of the statements *)

(** Staging a table under its name and logging the name. *)
Definition stage (table_name : string) (t : gmap string value) (o : object) : object :=
  mark table_name (set_db_ref (<[table_name := t]> (db_ref o)) o).

(** The shelf that [shelve.open] finds or makes at a path, and the disk it
    leaves. *)
Definition shelf_at (d : gmap string file) (f : string)
    : option (gmap string (gmap string value)) :=
  match d !! f with
  | None => Some ∅
  | Some (Shelf T) => Some T
  | Some NotAShelf => None
  end.

Definition touch (f : string) (d : gmap string file) : gmap string file :=
  match d !! f with
  | None => <[f := Shelf ∅]> d
  | Some _ => d
  end.

(** The part of a dict outside a set of keys, and the part inside. *)
Definition without (D : gset string) (m : gmap string (gmap string value))
    : gmap string (gmap string value) :=
  filter (λ kv, kv.1 ∉ D) m.

Definition within (D : gset string) (m : gmap string (gmap string value))
    : gmap string (gmap string value) :=
  filter (λ kv, kv.1 ∈ D) m.

(** The names the first loop of [save] deletes when it goes through [ks]:
    logged, and no longer staged. *)
Definition pruned (ks : list string) (o : object) : gset string :=
  (list_to_set ks ∩ log o) ∖ dom (db_ref o).

(** What a [save] that returns leaves on the shelf: the staged contents
    under the logged names, the old contents under the others. *)
Definition committed (o : object) (T : gmap string (gmap string value))
    : gmap string (gmap string value) :=
  within (log o) (db_ref o) ∪ without (log o) T.

(** The log [tracks] the shelf contents [T]: every name on which the
    staging area differs from [T] is logged. *)
Definition tracks (T : gmap string (gmap string value)) (o : object) : Prop :=
  ∀ k, k ∉ log o → db_ref o !! k = T !! k.

(** A read-write [SmallDB] on the path [f] is [synced] when its shelf is
    open on [f] and its log tracks the shelf. *)
Definition synced (f : string) (st : state) : Prop :=
  mode (self st) = "rw"
  ∧ dbfile (self st) = Some f
  ∧ db (self st) = Some (Handle f false)
  ∧ ∃ T, disk st !! f = Some (Shelf T) ∧ tracks T (self st).

(** A read-write [MemDB] without a source: no path, no shelf, and a log
    that tracks the empty store it started from. *)
Definition sourceless (o : object) : Prop :=
  mode o = "rw" ∧ dbfile o = None ∧ db o = None ∧ tracks ∅ o.

(** A read-write [MemDB] whose source [f] holds the shelf [T], with a log
    that tracks it. *)
Definition imported (f : string) (T : gmap string (gmap string value))
    (st : state) : Prop :=
  mode (self st) = "rw"
  ∧ dbfile (self st) = Some f
  ∧ db (self st) = None
  ∧ disk st !! f = Some (Shelf T)
  ∧ tracks T (self st).

(** The table a call names. *)
Definition table_of (c : mutator) : option string :=
  match c with
  | CreateTable t | Insert t _ _ | Update t _ _ | Append t _ _ | Add t _ _
  | Remove t _ | RemoveTable t => Some t
  | Save | Drop => None
  end.

(** The calls that work on the staging area alone. *)
Definition on_staging (c : mutator) : bool :=
  match c with
  | Save | Drop => false
  | _ => true
  end.

(** [touched o o']: what such a call can make of an instance.  It leaves
    it alone, stages a table, logs a name, or takes a table out of the
    staging area and logs its name. *)
Inductive touched (o : object) : object → Prop :=
  | touched_none : touched o o
  | touched_stage tn t : touched o (stage tn t o)
  | touched_mark tn : touched o (mark tn o)
  | touched_unstage tn :
      touched o (mark tn (set_db_ref (delete tn (db_ref o)) o)).

(** ** print_db

    What [print_db] prints is given back as the list of the strings its
    [print] statements write, in order.  [str] is Python's [str] on stored
    objects, which [%s] applies; the method is embedded for any such
    function. *)

Section print_db.

Variable str : value → string.

Definition tab : string := String "009"%char EmptyString.
Definition newline : string := String "010"%char EmptyString.

(** [c * n] for a one-character string *)
Definition times (c : ascii) (n : nat) : string :=
  string_of_list_ascii (repeat c n).

(** ["%s\t\t\t\t%-.80s" % (k, data)]: the data is cut after 80 characters. *)
Definition row (k data : string) : string :=
  k ++ tab ++ tab ++ tab ++ tab ++ substring 0 80 data.

(** The five lines that head a table. *)
Definition heading (title : string) : list string :=
  [ times "*" (String.length title + 4);
    "* " ++ title ++ " *";
    times "*" (String.length title + 4);
    row "key" "data";
    times "-" 100 ].

(** [for x in xs: print f(x)] *)
Fixpoint print_each {A} (xs : list A) (f : A → M string) : M (list string) :=
  match xs with
  | [] => ret []
  | x :: xs' => l ← f x; ls ← print_each xs' f; ret (l :: ls)
  end.

(** The rows of one table: all of them, or the one of [key], or the
    line that says the key is not there. *)
Definition print_rows (table : string) (key : option string) : M (list string) :=
  match key with
  | None =>
      st ← get;
      match db_ref (self st) !! table with
      | Some t =>
          print_each (elements (dom t))
            (λ k, v ← SmallDB.select table (Some k); ret (row k (str v)))
      | None => raise KeyError
      end
  | Some key =>
      try_except
        (v ← SmallDB.select table (Some key); ret [row key (str v)])
        (λ e, if isinstance e DBKeyError then ret ["No data was found"]
              else raise e)
  end.

(** [for x in xs: ...], collecting what each round prints *)
Fixpoint print_all {A} (xs : list A) (f : A → M (list string)) : M (list string) :=
  match xs with
  | [] => ret []
  | x :: xs' => l ← f x; ls ← print_all xs' f; ret (l ++ ls)%list
  end.

Definition print_db (table_name key : option string) : M (list string) :=
  match table_name with
  | None =>
      st ← get;
      print_all (elements (dom (db_ref (self st))))
        (λ table, rows ← print_rows table key;
                  ret (heading table ++ rows ++ [newline])%list)
  | Some table_name =>
      st ← get;
      match db_ref (self st) !! table_name with
      | None => ret [table_name ++ " not in Database."]
      | Some _ =>
          rows ← print_rows table_name key;
          ret (heading table_name ++ rows ++ [""])%list
      end
  end.

End print_db.

(** ** Every method of a memory store

    The public methods of [MemDB], its own and the inherited ones, as a
    caller names them.  What a reading method returns or prints is dropped
    here: a session goes on from the state the call left. *)

Inductive method : Type :=
  | Mutate (c : mutator)
  | Select (table_name : string) (key : option string)
  | Keys (table_name : string)
  | Tables
  | PrintDb (table_name key : option string)
  | Close
  | ReplicateFrom (dbf : option string)
  | ReplicateTo (dbf : option string).

Definition MemDB_method (str : value → string) (c : method) : M unit :=
  match c with
  | Mutate c => MemDB_call c
  | Select t k => _ ← MemDB.select t k; ret tt
  | Keys t => _ ← MemDB.keys t; ret tt
  | Tables => _ ← MemDB.tables; ret tt
  | PrintDb t k => _ ← print_db str t k; ret tt
  | Close => MemDB.close
  | ReplicateFrom dbf => MemDB.replicate_from_smalldb dbf
  | ReplicateTo dbf => MemDB.replicate_to_smalldb dbf
  end.

(** The state after the calls [cs], whatever each of them returned. *)
Definition run {C} (call : C → M unit) (cs : list C) (st : state) : state :=
  foldl (λ st c, (call c st).2) st cs.

(** [replicate_from_smalldb] with a path is the one call that gives a
    memory store a source. *)
Definition gives_source (c : method) : bool :=
  match c with
  | ReplicateFrom (Some _) => true
  | _ => false
  end.

(** A read-write session on the path [f], whose shelf held [T] when the
    store was opened: the state after the calls [cs]. *)
Definition session (f : string) (T : gmap string (gmap string value))
    (d : gmap string file) (cs : list mutator) : state :=
  exec SmallDB_call cs
    (State (Object "rw" (Some f) (Some (Handle f false)) T ∅) (touch f d)).

(** [drop] is the one data-changing call that opens the path again. *)
Definition reopens (c : mutator) : bool :=
  match c with
  | Drop => true
  | _ => false
  end.

(** ** A store to try statements on

    The shelf [f] holds the table [users] with one record, and a
    read-write [SmallDB] is open on it with nothing staged beyond it. *)
Definition demo_users : gmap string value := {["1" := VStr "alice"]}.

Definition demo_disk : gmap string file :=
  {["f" := Shelf {["users" := demo_users]}]}.

Definition demo_store : object :=
  Object "rw" (Some "f") (Some (Handle "f" false)) {["users" := demo_users]} ∅.

(** The same store after [close]. *)
Definition demo_closed : object :=
  Object "rw" (Some "f") (Some (Handle "f" true)) {["users" := demo_users]} ∅.

(** A memory store built from [f]. *)
Definition demo_mem : object :=
  Object "rw" (Some "f") None {["users" := demo_users]} ∅.

(** * Properties *)

Ltac unfold_m :=
  unfold read_only, self_db, lift in *;
  unfold try_except, bind, ret, raise, get, modify_self, modify_disk in *.

(** Running a [bind] whose first part is known. *)
Lemma bind_ok {A B} (m : M A) (k : A → M B) st a st' :
  m st = (Ok a, st') → bind m k st = k a st'.
Proof. intros H. unfold bind. by rewrite H. Qed.

Lemma call_on_ok {A} (m : M A) o' o d a o'' d' :
  m (State o' d) = (Ok a, State o'' d') →
  call_on o' m (State o d) = (Ok (a, o''), State o d').
Proof. intros H. unfold call_on. cbn [self disk]. by rewrite H. Qed.

(** The classes share these methods. *)
Lemma MemDB_call_on_staging c :
  on_staging c = true → MemDB_call c = SmallDB_call c.
Proof. by destruct c. Qed.

Section mode_guard.

Variables (o : object) (d : gmap string file).
Hypothesis Hro : mode o = "ro".

Lemma read_only_ro : read_only (State o d) = (Ok true, State o d).
Proof. unfold_m. simpl. by rewrite Hro. Qed.

Lemma SmallDB_call_ro c :
  SmallDB_call c (State o d) = (Raise ReadOnlyDatabaseError, State o d).
Proof.
  destruct c; simpl;
    unfold SmallDB.create_table, SmallDB.insert, SmallDB.insert_rec,
      SmallDB.update, SmallDB.append, SmallDB.add, SmallDB.remove,
      SmallDB.remove_table, SmallDB.save, SmallDB_drop, SmallDB.drop;
    unfold bind at 1; by rewrite read_only_ro.
Qed.

Lemma MemDB_call_ro c :
  c ≠ Save →
  MemDB_call c (State o d) = (Raise ReadOnlyDatabaseError, State o d).
Proof.
  intros Hc. destruct (on_staging c) eqn:Hs.
  - rewrite MemDB_call_on_staging by done. apply SmallDB_call_ro.
  - destruct c; try done. cbn [MemDB_call].
    unfold MemDB.drop, SmallDB.drop. unfold bind at 1.
    by rewrite read_only_ro.
Qed.

End mode_guard.


Lemma read_only_rw o d :
  mode o = "rw" → read_only (State o d) = (Ok false, State o d).
Proof. intros Hrw. unfold_m. simpl. by rewrite Hrw. Qed.

Ltac enter_rw H :=
  unfold bind at 1; rewrite (read_only_rw _ _ H).

Lemma create_table_rw o d tn :
  mode o = "rw" →
  SmallDB.create_table tn (State o d) = (Ok tt, State (stage tn ∅ o) d).
Proof. intros Hrw. unfold SmallDB.create_table. by enter_rw Hrw. Qed.

Lemma update_rw o d tn k v t :
  mode o = "rw" → db_ref o !! tn = Some t →
  SmallDB.update tn k v (State o d) = (Ok tt, State (stage tn (<[k := v]> t) o) d).
Proof.
  intros Hrw Ht. unfold SmallDB.update. enter_rw Hrw.
  unfold_m. simpl. by rewrite Ht.
Qed.

Lemma update_no_table o d tn k v :
  mode o = "rw" → db_ref o !! tn = None →
  SmallDB.update tn k v (State o d) = (Raise TableReferenceError, State o d).
Proof.
  intros Hrw Ht. unfold SmallDB.update. enter_rw Hrw.
  unfold_m. simpl. by rewrite Ht.
Qed.

Lemma insert_rec_present n o d tn k v t :
  mode o = "rw" → db_ref o !! tn = Some t →
  SmallDB.insert_rec (S n) tn k v (State o d) =
    match t !! k with
    | None => (Ok tt, State (stage tn (<[k := v]> t) o) d)
    | Some _ => (Raise DuplicateKeyError, State o d)
    end.
Proof.
  intros Hrw Ht. simpl. enter_rw Hrw.
  unfold_m. simpl. rewrite Ht. by destruct (t !! k).
Qed.

Lemma stage_stage tn t t' o : stage tn t' (stage tn t o) = stage tn t' o.
Proof.
  unfold stage, mark, set_log, set_db_ref. simpl. f_equal.
  - by rewrite insert_insert_eq.
  - by rewrite (assoc_L (∪)), (idemp_L (∪)).
Qed.

Lemma insert_rec_absent n o d tn k v :
  mode o = "rw" → db_ref o !! tn = None →
  SmallDB.insert_rec (S (S n)) tn k v (State o d) =
    (Ok tt, State (stage tn {[k := v]} o) d).
Proof.
  intros Hrw Ht.
  change (SmallDB.insert_rec (S (S n)) tn k v) with
    (ro ← read_only;
     if ro then raise ReadOnlyDatabaseError
     else st ← get;
          match db_ref (self st) !! tn with
          | None => SmallDB.create_table tn ;; SmallDB.insert_rec (S n) tn k v
          | Some table =>
              match table !! k with
              | None => modify_self (λ o,
                  set_db_ref (<[tn := <[k := v]> table]> (db_ref o)) o)
              | Some _ => raise DuplicateKeyError
              end ;; modify_self (mark tn)
          end).
  enter_rw Hrw. unfold bind at 1, get at 1. cbn [self]. rewrite Ht.
  unfold bind at 1. rewrite create_table_rw by done.
  rewrite (insert_rec_present _ _ _ _ _ _ ∅); [|done|].
  - rewrite lookup_empty, stage_stage. by rewrite insert_empty.
  - unfold stage. simpl. by rewrite lookup_insert_eq.
Qed.

Lemma insert_rec_unfold n tn k v :
  SmallDB.insert_rec (S n) tn k v =
    (ro ← read_only;
     if ro then raise ReadOnlyDatabaseError
     else st ← get;
          match db_ref (self st) !! tn with
          | None => SmallDB.create_table tn ;; SmallDB.insert_rec n tn k v
          | Some table =>
              match table !! k with
              | None => modify_self (λ o,
                  set_db_ref (<[tn := <[k := v]> table]> (db_ref o)) o)
              | Some _ => raise DuplicateKeyError
              end ;; modify_self (mark tn)
          end).
Proof. done. Qed.

(** The recursion of [insert] is one call deep: in any state, more fuel
    changes nothing. *)
Lemma insert_rec_fuel n o d tn k v :
  SmallDB.insert_rec (S (S n)) tn k v (State o d) = SmallDB.insert tn k v (State o d).
Proof.
  unfold SmallDB.insert.
  destruct (decide (mode o = "ro")) as [Hro|Hrw].
  - rewrite !insert_rec_unfold.
    by rewrite !(bind_ok _ _ _ _ _ (read_only_ro o d Hro)).
  - assert (∀ o' d', mode o' = mode o →
              read_only (State o' d') = (Ok false, State o' d')) as Hread.
    { intros o' d' Hm. unfold_m. cbn [self]. rewrite Hm.
      by rewrite bool_decide_false. }
    assert (∀ m t, db_ref o !! tn = t →
      SmallDB.insert_rec (S (S m)) tn k v (State o d) =
        match t with
        | Some t =>
            match t !! k with
            | None => (Ok tt, State (stage tn (<[k := v]> t) o) d)
            | Some _ => (Raise DuplicateKeyError, State o d)
            end
        | None => (Ok tt, State (stage tn (<[k := v]> ∅) (stage tn ∅ o)) d)
        end) as Hrun.
    { intros m t Ht. rewrite insert_rec_unfold.
      rewrite (bind_ok _ _ _ _ _ (Hread o d eq_refl)).
      unfold bind at 1, get at 1. cbn [self].
      rewrite Ht. destruct t as [t|].
      - unfold_m. cbn [self disk]. by destruct (t !! k).
      - unfold SmallDB.create_table.
        unfold bind at 1. rewrite (bind_ok _ _ _ _ _ (Hread o d eq_refl)).
        unfold bind at 1, modify_self at 1 2. cbn [self disk].
        rewrite insert_rec_unfold.
        erewrite bind_ok by (by apply Hread).
        unfold_m. cbn [self disk db_ref mark set_db_ref set_log].
        by rewrite lookup_insert_eq, lookup_empty. }
    by rewrite (Hrun n _ eq_refl), (Hrun 0%nat _ eq_refl).
Qed.



Lemma select_key o d tn k :
  SmallDB.select tn (Some k) (State o d) =
    match db_ref o !! tn with
    | None => (Raise TableReferenceError, State o d)
    | Some t =>
        match t !! k with
        | Some v => (Ok v, State o d)
        | None => (Raise DBKeyError, State o d)
        end
    end.
Proof.
  unfold SmallDB.select. unfold_m. cbn [self].
  destruct (db_ref o !! tn) as [t|]; [|done]. by destruct (t !! k).
Qed.

Lemma remove_rw o d tn k :
  mode o = "rw" →
  SmallDB.remove tn k (State o d) =
    match db_ref o !! tn with
    | None => (Raise TableReferenceError, State o d)
    | Some t =>
        match t !! k with
        | Some _ => (Ok tt, State (stage tn (delete k t) o) d)
        | None => (Raise DBKeyError, State o d)
        end
    end.
Proof.
  intros Hrw. unfold SmallDB.remove. enter_rw Hrw.
  unfold_m. cbn [self]. destruct (db_ref o !! tn) as [t|]; [|done].
  by destruct (t !! k).
Qed.

Lemma remove_table_rw o d tn :
  mode o = "rw" →
  SmallDB.remove_table tn (State o d) =
    match db_ref o !! tn with
    | None => (Raise TableReferenceError, State o d)
    | Some _ => (Ok tt, State (mark tn (set_db_ref (delete tn (db_ref o)) o)) d)
    end.
Proof.
  intros Hrw. unfold SmallDB.remove_table. enter_rw Hrw.
  unfold_m. cbn [self]. by destruct (db_ref o !! tn).
Qed.

(** Writing back the object that is already stored only logs the table. *)
Lemma stage_same o tn t :
  db_ref o !! tn = Some t → stage tn t o = mark tn o.
Proof.
  intros Ht. unfold stage. f_equal. unfold set_db_ref.
  rewrite insert_id by done. by destruct o.
Qed.

Lemma append_rw o d tn k obj :
  mode o = "rw" →
  SmallDB.append tn k obj (State o d) =
    match db_ref o !! tn with
    | None => (Raise TableReferenceError, State o d)
    | Some t =>
        match t !! k with
        | None => (Raise DBKeyError, State o d)
        | Some (VList l) =>
            (Ok tt, State (stage tn (<[k := VList (l ++ [obj])]> t) o) d)
        | Some _ => (Ok tt, State (mark tn o) d)
        end
    end.
Proof.
  intros Hrw. unfold SmallDB.append. enter_rw Hrw.
  unfold bind at 1, try_except. unfold bind at 1. rewrite select_key.
  destruct (db_ref o !! tn) as [t|] eqn:Ht; [|done].
  destruct (t !! k) as [x|] eqn:Hk; [|done].
  destruct x; try done.
  unfold bind at 1. cbn [obj_append lift ret].
  rewrite (update_rw _ _ _ _ _ t) by done.
  unfold modify_self. cbn [self disk]. f_equal. f_equal.
  unfold stage. unfold mark at 1. unfold set_log. cbn [mode dbfile db db_ref log mark set_db_ref set_log].
  f_equal. by rewrite (assoc_L (∪)), (idemp_L (∪)).
Qed.

Lemma add_rw o d tn k obj :
  mode o = "rw" →
  SmallDB.add tn k obj (State o d) =
    match db_ref o !! tn with
    | None => (Raise TableReferenceError, State o d)
    | Some t =>
        match t !! k with
        | None => (Raise DBKeyError, State o d)
        | Some x =>
            match obj_iadd x obj with
            | Ok y => (Ok tt, State (stage tn (<[k := y]> t) o) d)
            | Raise e => (Raise TypeError, State o d)
            end
        end
    end.
Proof.
  intros Hrw. unfold SmallDB.add. enter_rw Hrw.
  unfold bind at 1, try_except. unfold bind at 1. rewrite select_key.
  destruct (db_ref o !! tn) as [t|] eqn:Ht; [|done].
  destruct (t !! k) as [x|] eqn:Hk; [|done].
  assert (Hiadd : ∀ e, obj_iadd x obj = Raise e → e = TypeError).
  { intros e. destruct x, obj; simpl; congruence. }
  destruct (obj_iadd x obj) as [y|e] eqn:Hy.
  - unfold bind at 1. cbn [lift ret].
    rewrite (update_rw _ _ _ _ _ t) by done.
    unfold modify_self. cbn [self disk]. f_equal. f_equal.
    unfold stage. unfold mark at 1. unfold set_log. cbn [mode dbfile db db_ref log mark set_db_ref set_log].
    f_equal. by rewrite (assoc_L (∪)), (idemp_L (∪)).
  - rewrite (Hiadd e eq_refl). done.
Qed.



(** * Constructors *)

Lemma MemDB_new_no_source m o d :
  m = "ro" ∨ m = "rw" →
  MemDB.new None m (State o d) = (Ok (Object m None None ∅ ∅), State o d).
Proof. by intros [-> | ->]. Qed.

(** C9: [SmallDB(None, mode)] raises [DBInitializationError] whatever the
    mode and hands over no instance, while [MemDB(None, mode)] gives an empty
    store in either mode. *)
Theorem SmallDB_requires_dbfile (m : string) (o : object) (d : gmap string file) :
  SmallDB.new None m (State o d) = (Raise DBInitializationError, State o d)
  ∧ MemDB.new None "rw" (State o d) = (Ok (Object "rw" None None ∅ ∅), State o d)
  ∧ MemDB.new None "ro" (State o d) = (Ok (Object "ro" None None ∅ ∅), State o d).
Proof.
  split; [|done].
  unfold SmallDB.new, construct, SmallDB.__init__, SmallDB.__open__.
  unfold_m. cbn [self disk].
  by destruct (bool_decide (m ≠ "ro") && bool_decide (m ≠ "rw")).
Qed.

(** * The mode guard *)

(** [MemDB.save] is overridden with a body that does nothing: on a read-only
    memory store it returns. *)
Lemma MemDB_save_read_only_returns :
  MemDB.new None "ro" (boot ∅) = (Ok (Object "ro" None None ∅ ∅), boot ∅)
  ∧ mode (Object "ro" None None ∅ ∅) = "ro"
  ∧ MemDB_call Save (State (Object "ro" None None ∅ ∅) ∅)
    = (Ok tt, State (Object "ro" None None ∅ ∅) ∅)
  ∧ MemDB_call Save (State (Object "ro" None None ∅ ∅) ∅)
    ≠ (Raise ReadOnlyDatabaseError, State (Object "ro" None None ∅ ∅) ∅).
Proof. by repeat split. Qed.

(** C3 (amended): on a read-only instance each of the nine calls on a
    [SmallDB], and each but [save] on a [MemDB], raises
    [ReadOnlyDatabaseError] and leaves the instance and the disk as they
    were; [save] on a [MemDB] returns, and leaves them as they were too. *)
Theorem read_only_rejects_mutation (o : object) (d : gmap string file) (c : mutator) :
  mode o = "ro" →
  SmallDB_call c (State o d) = (Raise ReadOnlyDatabaseError, State o d)
  ∧ MemDB_call c (State o d) =
      match c with
      | Save => (Ok tt, State o d)
      | _ => (Raise ReadOnlyDatabaseError, State o d)
      end.
Proof.
  intros Hro. split; [by apply SmallDB_call_ro|].
  destruct c; try (by apply MemDB_call_ro). done.
Qed.

Lemma read_only_rejects_mutation_witness :
  SmallDB_call (Insert "users" "1" (VStr "alice"))
      (State (Object "ro" (Some "f") (Some (Handle "f" true)) ∅ ∅)
             {["f" := Shelf ∅]})
    = (Raise ReadOnlyDatabaseError,
       State (Object "ro" (Some "f") (Some (Handle "f" true)) ∅ ∅)
             {["f" := Shelf ∅]})
  ∧ MemDB_call (Insert "users" "1" (VStr "alice"))
      (State (Object "ro" (Some "f") (Some (Handle "f" true)) ∅ ∅)
             {["f" := Shelf ∅]})
    = (Raise ReadOnlyDatabaseError,
       State (Object "ro" (Some "f") (Some (Handle "f" true)) ∅ ∅)
             {["f" := Shelf ∅]}).
Proof.
  apply (read_only_rejects_mutation
           (Object "ro" (Some "f") (Some (Handle "f" true)) ∅ ∅)
           {["f" := Shelf ∅]}
           (Insert "users" "1" (VStr "alice"))).
  reflexivity.
Defined.

(** * insert and update *)

(** C4: on a read-write instance, [insert] into a table that is not staged
    is [create_table] followed by the same [insert]: the table is created
    empty and logged, and the call ends with the table holding the one
    record; on a staged table a key that is there raises
    [DuplicateKeyError] and changes nothing; a new key is stored under the
    table and the table's name is added to the log.  Mode, path, handle,
    the other tables and the disk are as before. *)
Theorem insert_spec (o : object) (d : gmap string file) (tn k : string) (v : value) :
  mode o = "rw" →
  match db_ref o !! tn with
  | None =>
      SmallDB.insert tn k v (State o d)
        = (SmallDB.create_table tn ;; SmallDB.insert tn k v) (State o d)
      ∧ SmallDB.create_table tn (State o d)
        = (Ok tt, State (Object (mode o) (dbfile o) (db o)
                           (<[tn := ∅]> (db_ref o)) ({[tn]} ∪ log o)) d)
      ∧ SmallDB.insert tn k v (State o d)
        = (Ok tt, State (Object (mode o) (dbfile o) (db o)
                           (<[tn := {[k := v]}]> (db_ref o)) ({[tn]} ∪ log o)) d)
  | Some t =>
      match t !! k with
      | Some _ =>
          SmallDB.insert tn k v (State o d) = (Raise DuplicateKeyError, State o d)
      | None =>
          SmallDB.insert tn k v (State o d)
            = (Ok tt, State (Object (mode o) (dbfile o) (db o)
                               (<[tn := <[k := v]> t]> (db_ref o)) ({[tn]} ∪ log o)) d)
      end
  end.
Proof.
  intros Hrw. destruct (db_ref o !! tn) as [t|] eqn:Ht.
  - unfold SmallDB.insert. rewrite (insert_rec_present _ _ _ _ _ _ t) by done.
    by destruct (t !! k).
  - split; [|split].
    + unfold bind. rewrite create_table_rw by done.
      unfold SmallDB.insert. rewrite insert_rec_absent by done.
      rewrite (insert_rec_present _ _ _ _ _ _ ∅); [|done|].
      * by rewrite lookup_empty, stage_stage, insert_empty.
      * unfold stage. cbn. by rewrite lookup_insert_eq.
    + by rewrite create_table_rw.
    + unfold SmallDB.insert. by rewrite insert_rec_absent.
Qed.

Lemma insert_spec_witness :
  SmallDB.insert "users" "1" (VStr "bob")
      (State (Object "rw" None None {["users" := {["1" := VStr "alice"]}]} ∅) ∅)
    = (Raise DuplicateKeyError,
       State (Object "rw" None None {["users" := {["1" := VStr "alice"]}]} ∅) ∅)
  ∧ SmallDB.insert "users" "2" (VStr "bob")
      (State (Object "rw" None None {["users" := {["1" := VStr "alice"]}]} ∅) ∅)
    = (Ok tt,
       State (Object "rw" None None
                {["users" := {["1" := VStr "alice"; "2" := VStr "bob"]}]}
                {["users"]}) ∅)
  ∧ SmallDB.insert "users" "1" (VStr "alice") (State (Object "rw" None None ∅ ∅) ∅)
    = (Ok tt,
       State (Object "rw" None None {["users" := {["1" := VStr "alice"]}]}
                {["users"]}) ∅).
Proof.
  split; [|split].
  - exact (insert_spec
      (Object "rw" None None {["users" := {["1" := VStr "alice"]}]} ∅) ∅
      "users" "1" (VStr "bob") eq_refl).
  - etrans; [exact (insert_spec
      (Object "rw" None None {["users" := {["1" := VStr "alice"]}]} ∅) ∅
      "users" "2" (VStr "bob") eq_refl)|].
    vm_compute. reflexivity.
  - etrans; [exact (proj2 (proj2 (insert_spec (Object "rw" None None ∅ ∅) ∅
      "users" "1" (VStr "alice") eq_refl)))|].
    vm_compute. reflexivity.
Defined.

(** C5: on a read-write instance, [update] of a staged table stores the
    object under the key in that table, whether the key was there or not,
    and adds the table's name to the log; mode, path, handle, the other
    tables and the disk are as before.  On a table that is not staged it
    raises [TableReferenceError] and changes nothing. *)
Theorem update_spec (o : object) (d : gmap string file) (tn k : string) (v : value) :
  mode o = "rw" →
  SmallDB.update tn k v (State o d) =
    match db_ref o !! tn with
    | Some t =>
        (Ok tt, State (Object (mode o) (dbfile o) (db o)
                         (<[tn := <[k := v]> t]> (db_ref o)) ({[tn]} ∪ log o)) d)
    | None => (Raise TableReferenceError, State o d)
    end.
Proof.
  intros Hrw. destruct (db_ref o !! tn) as [t|] eqn:Ht.
  - by rewrite (update_rw _ _ _ _ _ t).
  - by apply update_no_table.
Qed.

(** What [stage] does to the two dicts, spelled out. *)
Lemma stage_lookup o tn t :
  db_ref (stage tn t o) !! tn = Some t
  ∧ (∀ tn', tn' ≠ tn → db_ref (stage tn t o) !! tn' = db_ref o !! tn')
  ∧ log (stage tn t o) = {[tn]} ∪ log o.
Proof.
  unfold stage. cbn. split; [by rewrite lookup_insert_eq|].
  split; [|done]. intros tn' Hne. by rewrite lookup_insert_ne.
Qed.

Lemma update_spec_witness :
  SmallDB.update "users" "2" (VStr "bob")
      (State (Object "rw" None None {["users" := {["1" := VStr "alice"]}]} ∅) ∅)
    = (Ok tt,
       State (Object "rw" None None
                {["users" := {["1" := VStr "alice"; "2" := VStr "bob"]}]}
                {["users"]}) ∅)
  ∧ SmallDB.update "users" "1" (VStr "bob")
      (State (Object "rw" None None {["users" := {["1" := VStr "alice"]}]} ∅) ∅)
    = (Ok tt,
       State (Object "rw" None None {["users" := {["1" := VStr "bob"]}]}
                {["users"]}) ∅)
  ∧ SmallDB.update "users" "1" (VStr "bob") (State (Object "rw" None None ∅ ∅) ∅)
    = (Raise TableReferenceError, State (Object "rw" None None ∅ ∅) ∅).
Proof.
  split; [|split].
  - etrans; [exact (update_spec
      (Object "rw" None None {["users" := {["1" := VStr "alice"]}]} ∅) ∅
      "users" "2" (VStr "bob") eq_refl)|].
    vm_compute. reflexivity.
  - etrans; [exact (update_spec
      (Object "rw" None None {["users" := {["1" := VStr "alice"]}]} ∅) ∅
      "users" "1" (VStr "bob") eq_refl)|].
    vm_compute. reflexivity.
  - exact (update_spec (Object "rw" None None ∅ ∅) ∅
      "users" "1" (VStr "bob") eq_refl).
Defined.

(** * append and add on objects that do not support them *)

(** [append] on a stored object that has no [append] method returns
    normally; all it does is log the table. *)
Lemma append_unsupported o d tn k obj t x :
  mode o = "rw" → db_ref o !! tn = Some t → t !! k = Some x →
  obj_append x obj = Raise AttributeError →
  SmallDB.append tn k obj (State o d) = (Ok tt, State (mark tn o) d).
Proof.
  intros Hrw Ht Hk Hx. rewrite append_rw by done. rewrite Ht, Hk.
  by destruct x.
Qed.

(** [add] on a stored object that does not take [+=] with the given one
    lets the [TypeError] through, and changes nothing. *)
Lemma add_unsupported o d tn k obj t x e :
  mode o = "rw" → db_ref o !! tn = Some t → t !! k = Some x →
  obj_iadd x obj = Raise e →
  SmallDB.add tn k obj (State o d) = (Raise TypeError, State o d).
Proof.
  intros Hrw Ht Hk Hx. rewrite add_rw by done. by rewrite Ht, Hk, Hx.
Qed.

(** C6 (the code at the failing input): the shelf [f] holds a table [t] whose
    key [k] stores the integer 1.  [append("t", "k", 2)] on it returns
    without an exception: the stored object is as it was and [t] is in the
    log.  [add("t", "k", "a")] raises the builtin [TypeError]. *)
Theorem append_swallows_AttributeError :
  script (SmallDB.new (Some "f") "rw") (SmallDB.append "t" "k" (VInt 2))
      (boot {["f" := Shelf {["t" := {["k" := VInt 1]}]}]})
    = (Ok (Object "rw" (Some "f") (Some (Handle "f" false))
             {["t" := {["k" := VInt 1]}]} {["t"]}),
       boot {["f" := Shelf {["t" := {["k" := VInt 1]}]}]})
  ∧ script (SmallDB.new (Some "f") "rw") (SmallDB.add "t" "k" (VStr "a"))
      (boot {["f" := Shelf {["t" := {["k" := VInt 1]}]}]})
    = (Raise TypeError, boot {["f" := Shelf {["t" := {["k" := VInt 1]}]}]}).
Proof. split; vm_compute; reflexivity. Qed.

(** * close *)

(** C7 (the code at the failing input): a read-write store is opened on an
    empty disk and closed; the [insert] that follows returns without an
    exception and stages the record, which the closed shelf never sees. *)
Theorem insert_after_close_succeeds :
  script (SmallDB.new (Some "f") "rw")
      (SmallDB.close ;; SmallDB.insert "users" "1" (VStr "alice")) (boot ∅)
    = (Ok (Object "rw" (Some "f") (Some (Handle "f" true))
             {["users" := {["1" := VStr "alice"]}]} {["users"]}),
       boot {["f" := Shelf ∅]}).
Proof. vm_compute. reflexivity. Qed.

(** * save *)

(** C1 (the code at the failing input): after [create_table("users")] a
    [save] that returns normally has written the table, and ["users"] is
    still in the log. *)
Theorem save_keeps_written_tables_logged :
  script (SmallDB.new (Some "f") "rw")
      (SmallDB.create_table "users" ;; SmallDB.save) (boot ∅)
    = (Ok (Object "rw" (Some "f") (Some (Handle "f" false))
             {["users" := ∅]} {["users"]}),
       boot {["f" := Shelf {["users" := ∅]}]}).
Proof. vm_compute. reflexivity. Qed.

(** C2 (the code at the failing input): a table created and removed before
    it was ever written is in the log and in neither the staging area nor the
    shelf; [save] raises [KeyError] on it. *)
Theorem save_fails_on_unpersisted_removed_table :
  script (SmallDB.new (Some "f") "rw")
      (SmallDB.create_table "t" ;; SmallDB.remove_table "t" ;; SmallDB.save)
      (boot ∅)
    = (Raise KeyError, boot {["f" := Shelf ∅]}).
Proof. vm_compute. reflexivity. Qed.

(** ** What [save] does to the shelf and to the log *)



Lemma lookup_without D m k :
  without D m !! k = if decide (k ∈ D) then None else m !! k.
Proof.
  unfold without. rewrite map_lookup_filter.
  destruct (m !! k) as [t|]; cbn; [|by case_decide].
  case_decide.
  - by rewrite option_guard_False by (by intros []).
  - by rewrite option_guard_True.
Qed.

Lemma lookup_within D m k :
  within D m !! k = if decide (k ∈ D) then m !! k else None.
Proof.
  unfold within. rewrite map_lookup_filter.
  destruct (m !! k) as [t|]; cbn; [|by case_decide].
  case_decide.
  - by rewrite option_guard_True.
  - by rewrite option_guard_False.
Qed.


Lemma set_log_id o : set_log (log o) o = o.
Proof. by destruct o. Qed.

Lemma prune_loop ks : ∀ o d p T,
  db o = Some (Handle p false) →
  d !! p = Some (Shelf T) →
  NoDup ks →
  (∀ k, k ∈ ks → is_Some (T !! k)) →
  for_each ks SmallDB.save_prune (State o d)
  = (Ok tt, State (set_log (log o ∖ pruned ks o) o)
                  (<[p := Shelf (without (pruned ks o) T)]> d)).
Proof.
  induction ks as [|k ks IH]; intros o d p T Hdb Hp Hnd Hin.
  - cbn [for_each]. unfold ret. f_equal. f_equal.
    + replace (pruned [] o) with (∅ : gset string) by (unfold pruned; set_solver).
      by rewrite difference_empty_L, set_log_id.
    + symmetry. apply insert_id. rewrite Hp. do 2 f_equal.
      apply map_eq. intros i. rewrite lookup_without.
      case_decide as Hi; [|done]. unfold pruned in Hi. set_solver.
  - apply NoDup_cons in Hnd as [Hk Hnd].
    cbn [for_each]. unfold bind at 1. unfold SmallDB.save_prune at 1.
    unfold bind at 1, get at 1. cbn [self].
    destruct (bool_decide (k ∈ log o) && bool_decide (k ∉ dom (db_ref o))) eqn:Hc.
    + apply andb_true_iff in Hc as [HkL HkS].
      apply bool_decide_eq_true in HkL, HkS.
      destruct (Hin k) as [t Ht]; [set_solver|].
      unfold self_db, shelve.delitem, shelve.dict. unfold_m.
      cbn [self disk]. rewrite Hdb. cbn [closed path self disk].
      rewrite Hp, Ht. cbn [self disk].
      rewrite (IH _ _ p (delete k T)); cbn [db log db_ref set_log]; try done.
      * f_equal. f_equal.
        -- unfold set_log. cbn. f_equal. unfold pruned. cbn. set_solver.
        -- rewrite insert_insert_eq. do 2 f_equal.
           apply map_eq. intros i. rewrite !lookup_without.
           unfold pruned. cbn.
           destruct (decide (i = k)) as [->|Hne].
           ++ rewrite lookup_delete_eq.
              repeat case_decide; try done; exfalso; set_solver.
           ++ rewrite lookup_delete_ne by done.
              repeat case_decide; try done; exfalso; set_solver.
      * by rewrite lookup_insert_eq.
      * intros k' Hk'. rewrite lookup_delete_ne; [apply Hin; set_solver|].
        intros ->. done.
    + unfold ret at 1.
      rewrite (IH _ _ p T); try done; [|intros; apply Hin; set_solver].
      assert (pruned (k :: ks) o = pruned ks o) as ->; [|done].
      apply andb_false_iff in Hc as [Hc|Hc]; apply bool_decide_eq_false in Hc;
        unfold pruned; [set_solver|].
      apply dec_stable in Hc. set_solver.
Qed.

Lemma self_db_ok o d h :
  db o = Some h → self_db (State o d) = (Ok h, State o d).
Proof. intros H. unfold_m. cbn [self]. by rewrite H. Qed.

Lemma dict_ok o d p T :
  d !! p = Some (Shelf T) →
  shelve.dict (Handle p false) (State o d) = (Ok T, State o d).
Proof. intros H. unfold shelve.dict. unfold_m. cbn. by rewrite H. Qed.

Lemma keys_ok o d p T :
  d !! p = Some (Shelf T) →
  shelve.keys (Handle p false) (State o d) = (Ok (elements (dom T)), State o d).
Proof.
  intros H. unfold shelve.keys. by rewrite (bind_ok _ _ _ _ _ (dict_ok _ _ _ _ H)).
Qed.

Lemma getitem_ok o d p T k t :
  d !! p = Some (Shelf T) → T !! k = Some t →
  shelve.getitem (Handle p false) k (State o d) = (Ok t, State o d).
Proof.
  intros H Hk. unfold shelve.getitem.
  rewrite (bind_ok _ _ _ _ _ (dict_ok _ _ _ _ H)). by rewrite Hk.
Qed.

Lemma save_write_step o d p T k :
  db o = Some (Handle p false) →
  d !! p = Some (Shelf T) →
  SmallDB.save_write k (State o d) =
    match db_ref o !! k with
    | Some t => (Ok tt, State o (<[p := Shelf (<[k := t]> T)]> d))
    | None => (Raise KeyError, State o d)
    end.
Proof.
  intros Hdb Hp. unfold SmallDB.save_write, shelve.setitem, shelve.dict.
  unfold_m. cbn [self disk]. destruct (db_ref o !! k) as [t|]; [|done].
  cbn [self disk]. rewrite Hdb. cbn [closed path self disk]. by rewrite Hp.
Qed.

Lemma write_loop ks : ∀ o d p T,
  db o = Some (Handle p false) →
  d !! p = Some (Shelf T) →
  (∀ k, k ∈ ks → is_Some (db_ref o !! k)) →
  for_each ks SmallDB.save_write (State o d)
  = (Ok tt, State o (<[p := Shelf (within (list_to_set ks) (db_ref o) ∪ T)]> d)).
Proof.
  induction ks as [|k ks IH]; intros o d p T Hdb Hp Hin.
  - cbn [for_each]. unfold ret. do 2 f_equal.
    symmetry. apply insert_id. rewrite Hp. do 2 f_equal.
    apply map_eq. intros i. rewrite lookup_union, lookup_within.
    case_decide as Hi; [set_solver|]. by rewrite (left_id_L None _).
  - cbn [for_each]. unfold bind at 1.
    rewrite (save_write_step _ _ p T) by done.
    destruct (Hin k) as [t Ht]; [set_solver|]. rewrite Ht.
    rewrite (IH _ _ p (<[k := t]> T)); try done.
    + rewrite insert_insert_eq. do 4 f_equal.
      apply map_eq. intros i. rewrite !lookup_union, !lookup_within.
      destruct (decide (i = k)) as [->|Hne].
      * rewrite lookup_insert_eq, Ht.
        rewrite (decide_True (P := k ∈ list_to_set (k :: ks))) by set_solver.
        case_decide; by destruct (T !! k).
      * rewrite lookup_insert_ne by done.
        repeat case_decide; try done; exfalso; set_solver.
    + by rewrite lookup_insert_eq.
    + intros k' Hk'. apply Hin. set_solver.
Qed.

Lemma write_loop_KeyError ks : ∀ o d p T,
  db o = Some (Handle p false) →
  d !! p = Some (Shelf T) →
  (∃ k, k ∈ ks ∧ db_ref o !! k = None) →
  ∃ d', for_each ks SmallDB.save_write (State o d) = (Raise KeyError, State o d').
Proof.
  induction ks as [|k ks IH]; intros o d p T Hdb Hp (k0 & Hk0 & Hnone).
  - by apply elem_of_nil in Hk0.
  - cbn [for_each]. unfold bind at 1.
    rewrite (save_write_step _ _ p T) by done.
    destruct (db_ref o !! k) as [t|] eqn:Ht; [|by eexists].
    apply (IH _ _ p (<[k := t]> T)); [done|by rewrite lookup_insert_eq|].
    exists k0. split; [|done].
    apply elem_of_cons in Hk0 as [->|]; [congruence|done].
Qed.


Lemma lookup_committed o T k :
  committed o T !! k = if decide (k ∈ log o) then db_ref o !! k else T !! k.
Proof.
  unfold committed. rewrite lookup_union, lookup_within, lookup_without.
  case_decide; [|by rewrite (left_id_L None _)].
  by destruct (db_ref o !! k).
Qed.

(** [save] on an open read-write store returns when every logged name is
    staged or on the shelf.  It then leaves in the log the names that are
    staged: those of the tables it wrote. *)
Lemma save_ok o d p T :
  mode o = "rw" →
  db o = Some (Handle p false) →
  d !! p = Some (Shelf T) →
  (∀ k, k ∈ log o → k ∈ dom (db_ref o) ∨ k ∈ dom T) →
  SmallDB.save (State o d)
  = (Ok tt, State (set_log (log o ∩ dom (db_ref o)) o)
                  (<[p := Shelf (committed o T)]> d)).
Proof.
  intros Hrw Hdb Hp Hlog. unfold SmallDB.save. enter_rw Hrw.
  rewrite (bind_ok _ _ _ _ _ (self_db_ok _ _ _ Hdb)).
  rewrite (bind_ok _ _ _ _ _ (keys_ok _ _ _ _ Hp)).
  erewrite bind_ok; cycle 1.
  { apply (prune_loop _ _ _ p T); try done.
    - apply NoDup_elements.
    - intros k Hk. apply elem_of_elements in Hk. by apply elem_of_dom. }
  unfold bind at 1, get at 1. cbn [self].
  rewrite (write_loop _ _ _ p (without (pruned (elements (dom T)) o) T));
    cbn [log db_ref db set_log].
  - rewrite insert_insert_eq. f_equal. f_equal.
    + unfold set_log. f_equal. unfold pruned.
      apply set_eq. intros k. rewrite list_to_set_elements_L.
      specialize (Hlog k).
      destruct (decide (k ∈ dom (db_ref o))); set_solver.
    + do 2 f_equal. apply map_eq. intros k.
      rewrite lookup_committed, lookup_union, lookup_within, lookup_without.
      unfold pruned. rewrite !list_to_set_elements_L.
      specialize (Hlog k).
      destruct (db_ref o !! k) as [t|] eqn:Hk.
      * assert (k ∈ dom (db_ref o)) by (by apply elem_of_dom).
        repeat case_decide; try done; try (by destruct (T !! k));
          exfalso; set_solver.
      * assert (k ∉ dom (db_ref o)) by (by apply not_elem_of_dom).
        repeat case_decide; try done; try (by destruct (T !! k));
          exfalso; set_solver.
  - done.
  - by rewrite lookup_insert_eq.
  - intros k Hk. apply elem_of_elements in Hk.
    unfold pruned in Hk. rewrite list_to_set_elements_L in Hk.
    apply elem_of_dom. specialize (Hlog k).
    destruct (decide (k ∈ dom (db_ref o))); [done|set_solver].
Qed.

(** A logged name that is neither staged nor on the shelf makes [save]
    raise [KeyError]; the staging area is as it was. *)
Lemma save_KeyError o d p T k :
  mode o = "rw" →
  db o = Some (Handle p false) →
  d !! p = Some (Shelf T) →
  k ∈ log o → k ∉ dom (db_ref o) → k ∉ dom T →
  ∃ st', SmallDB.save (State o d) = (Raise KeyError, st')
         ∧ db_ref (self st') = db_ref o.
Proof.
  intros Hrw Hdb Hp HkL HkS HkT. unfold SmallDB.save. enter_rw Hrw.
  rewrite (bind_ok _ _ _ _ _ (self_db_ok _ _ _ Hdb)).
  rewrite (bind_ok _ _ _ _ _ (keys_ok _ _ _ _ Hp)).
  erewrite bind_ok; cycle 1.
  { apply (prune_loop _ _ _ p T); try done.
    - apply NoDup_elements.
    - intros k' Hk'. apply elem_of_elements in Hk'. by apply elem_of_dom. }
  unfold bind at 1, get at 1. cbn [self].
  edestruct (write_loop_KeyError
    (elements (log (set_log (log o ∖ pruned (elements (dom T)) o) o)))
    (set_log (log o ∖ pruned (elements (dom T)) o) o)) as [d' Hd'];
    [done|by apply lookup_insert_eq| |].
  - exists k. cbn [log db_ref set_log]. split.
    + apply elem_of_elements. unfold pruned.
      rewrite list_to_set_elements_L. set_solver.
    + by apply not_elem_of_dom.
  - eexists. split; [exact Hd'|done].
Qed.

(** ** Opening *)

Lemma load_loop ks : ∀ o d p T,
  db o = Some (Handle p false) →
  d !! p = Some (Shelf T) →
  (∀ k, k ∈ ks → is_Some (T !! k)) →
  for_each ks SmallDB.open_load (State o d)
  = (Ok tt, State (set_db_ref (within (list_to_set ks) T ∪ db_ref o) o) d).
Proof.
  induction ks as [|k ks IH]; intros o d p T Hdb Hp Hin.
  - cbn [for_each]. unfold ret. do 2 f_equal.
    replace (within (list_to_set []) T ∪ db_ref o) with (db_ref o);
      [by destruct o|].
    apply map_eq. intros i. rewrite lookup_union, lookup_within.
    case_decide as Hi; [set_solver|]. by rewrite (left_id_L None _).
  - cbn [for_each]. unfold bind at 1. unfold SmallDB.open_load at 1.
    destruct (Hin k) as [t Ht]; [set_solver|].
    rewrite (bind_ok _ _ _ _ _ (self_db_ok _ _ _ Hdb)).
    rewrite (bind_ok _ _ _ _ _ (getitem_ok _ _ _ _ _ _ Hp Ht)).
    unfold modify_self. cbn [self disk].
    rewrite (IH _ _ p T); try done; [|intros; apply Hin; set_solver].
    do 2 f_equal. unfold set_db_ref. cbn [mode dbfile db db_ref log]. f_equal.
    apply map_eq. intros i. rewrite !lookup_union, !lookup_within.
    destruct (decide (i = k)) as [->|Hne].
    + rewrite lookup_insert_eq, Ht.
      rewrite (decide_True (P := k ∈ list_to_set (k :: ks))) by set_solver.
      case_decide; by destruct (db_ref o !! k).
    + rewrite lookup_insert_ne by done.
      repeat case_decide; try done; exfalso; set_solver.
Qed.



Lemma touch_lookup d f T :
  shelf_at d f = Some T → touch f d !! f = Some (Shelf T).
Proof.
  unfold shelf_at, touch. destruct (d !! f) as [[T'|]|] eqn:Hf; try done.
  - by intros [= ->].
  - intros [= <-]. by rewrite lookup_insert_eq.
Qed.

Lemma open_ok o d f T :
  shelf_at d f = Some T →
  shelve.open f (State o d) = (Ok (Handle f false), State o (touch f d)).
Proof.
  unfold shelf_at, touch, shelve.open. unfold_m. cbn [self disk].
  by destruct (d !! f) as [[T'|]|].
Qed.

Lemma within_dom T : within (list_to_set (elements (dom T))) T ∪ ∅ = T.
Proof.
  apply map_eq. intros i. rewrite lookup_union, lookup_within, lookup_empty.
  rewrite list_to_set_elements_L.
  destruct (T !! i) as [t|] eqn:Hi; case_decide as Hd; try done.
  exfalso. apply Hd. by apply elem_of_dom.
Qed.

(** [__open__] on a path that holds a shelf, or nothing yet, loads every
    table of the shelf and starts with an empty log; a read-only instance
    closes the shelf at once. *)
Lemma SmallDB_open_ok o d f T :
  dbfile o = Some f →
  mode o = "ro" ∨ mode o = "rw" →
  shelf_at d f = Some T →
  SmallDB.__open__ (State o d)
  = (Ok tt, State (Object (mode o) (Some f)
                     (Some (Handle f (bool_decide (mode o = "ro")))) T ∅)
                  (touch f d)).
Proof.
  intros Hf Hm HT. unfold SmallDB.__open__.
  unfold bind at 1, get at 1. cbn [self]. rewrite Hf.
  assert (try_except
    (h ← shelve.open f;
     modify_self (set_db (Some h)) ;;
     modify_self (set_db_ref ∅) ;;
     h ← self_db;
     ks ← shelve.keys h;
     for_each ks SmallDB.open_load)
    (λ _, raise DBInitializationError) (State o d)
    = (Ok tt, State (Object (mode o) (dbfile o) (Some (Handle f false)) T (log o))
                    (touch f d))) as Htry.
  { unfold try_except.
    rewrite (bind_ok _ _ _ _ _ (open_ok _ _ _ _ HT)).
    unfold bind at 1, modify_self at 1. cbn [self disk].
    unfold bind at 1, modify_self at 1. cbn [self disk].
    erewrite bind_ok by (by apply self_db_ok).
    erewrite bind_ok by (by apply keys_ok, touch_lookup).
    erewrite (load_loop _ _ _ f T); cbn [db set_db set_db_ref]; try done.
    - unfold set_db_ref. cbn [mode dbfile db db_ref log]. by rewrite within_dom.
    - by apply touch_lookup.
    - intros k Hk. apply elem_of_elements in Hk. by apply elem_of_dom. }
  erewrite bind_ok by exact Htry.
  unfold bind at 1, modify_self at 1. cbn [self disk].
  unfold set_log at 1. cbn [mode dbfile db db_ref log].
  unfold read_only. unfold_m. cbn [self disk mode db].
  rewrite Hf. destruct Hm as [-> | ->]; done.
Qed.

(** [SmallDB(f, mode)] *)
Lemma SmallDB_new_ok o d f m T :
  m = "ro" ∨ m = "rw" →
  shelf_at d f = Some T →
  SmallDB.new (Some f) m (State o d)
  = (Ok (Object m (Some f) (Some (Handle f (bool_decide (m = "ro")))) T ∅),
     State o (touch f d)).
Proof.
  intros Hm HT. unfold SmallDB.new, construct, SmallDB.__init__.
  cbn [disk self].
  assert ((if bool_decide (m ≠ "ro") && bool_decide (m ≠ "rw")
           then raise DBInitializationError
           else modify_self (set_mode m)) (State blank d)
          = (Ok tt, State (set_mode m blank) d)) as Hmode.
  { by destruct Hm as [-> | ->]. }
  erewrite bind_ok by exact Hmode.
  unfold bind at 1, modify_self at 1. cbn [self disk].
  rewrite (SmallDB_open_ok _ _ f T); try done.
Qed.

(** ** Closing *)

(** [close] runs [save] when the log is not empty, and only then; the
    shelf is closed after it. *)
Lemma close_saves_iff_dirty st :
  SmallDB.close st
  = ((if bool_decide (log (self st) ≠ ∅) then SmallDB.save else ret tt) ;;
     h ← self_db; modify_self (set_db (Some (shelve.close h)))) st.
Proof.
  unfold SmallDB.close. unfold bind at 1, get at 1.
  assert (bool_decide (size (log (self st)) ≠ 0%nat)
          = bool_decide (log (self st) ≠ ∅)) as ->; [|done].
  apply bool_decide_ext. rewrite size_non_empty_iff.
  by rewrite leibniz_equiv_iff.
Qed.

Lemma close_clean o d h :
  db o = Some h → log o = ∅ →
  SmallDB.close (State o d) = (Ok tt, State (set_db (Some (shelve.close h)) o) d).
Proof.
  intros Hdb Hlog. rewrite close_saves_iff_dirty. cbn [self].
  rewrite Hlog. rewrite bool_decide_false by (by intros []).
  unfold bind at 1, ret at 1.
  by rewrite (bind_ok _ _ _ _ _ (self_db_ok _ _ _ Hdb)).
Qed.

Lemma committed_idem o T :
  committed (set_log (log o ∩ dom (db_ref o)) o) (committed o T) = committed o T.
Proof.
  apply map_eq. intros k. rewrite !lookup_committed. cbn [log db_ref set_log].
  repeat case_decide; try done; exfalso; set_solver.
Qed.

Lemma close_dirty o d p T :
  mode o = "rw" →
  db o = Some (Handle p false) →
  d !! p = Some (Shelf T) →
  log o ≠ ∅ →
  (∀ k, k ∈ log o → k ∈ dom (db_ref o) ∨ k ∈ dom T) →
  SmallDB.close (State o d)
  = (Ok tt, State (set_db (Some (Handle p true)) (set_log (log o ∩ dom (db_ref o)) o))
                  (<[p := Shelf (committed o T)]> d)).
Proof.
  intros Hrw Hdb Hp Hne Hlog. rewrite close_saves_iff_dirty. cbn [self].
  rewrite bool_decide_true by done.
  rewrite (bind_ok _ _ _ _ _ (save_ok _ _ _ _ Hrw Hdb Hp Hlog)).
  erewrite bind_ok by (by apply self_db_ok).
  done.
Qed.

(** ** MemDB: import and export *)

Lemma MemDB_open_ok o d f T :
  dbfile o = Some f →
  shelf_at d f = Some T →
  MemDB.__open__ (State o d) = (Ok tt, State (set_log ∅ (set_db_ref T o)) (touch f d)).
Proof.
  intros Hf HT. unfold MemDB.__open__.
  unfold bind at 1, get at 1. cbn [self]. rewrite Hf.
  erewrite bind_ok; cycle 1.
  { erewrite bind_ok by (apply (SmallDB_new_ok _ _ f "rw" T); auto).
    unfold bind at 1, modify_self at 1. cbn [self disk db_ref].
    unfold call_on. cbn [self disk].
    erewrite bind_ok; cycle 1.
    { by rewrite (close_clean _ _ (Handle f false)). }
    done. }
  done.
Qed.

Lemma MemDB_init_ok o d f T :
  shelf_at d f = Some T →
  MemDB.__init__ (Some f) "rw" (State o d)
  = (Ok tt, State (Object "rw" (Some f) (db o) T ∅) (touch f d)).
Proof.
  intros HT. unfold MemDB.__init__, SmallDB.__init__.
  cbn [bool_decide andb]. unfold bind at 1.
  replace (bool_decide ("rw" ≠ "ro") && bool_decide ("rw" ≠ "rw")) with false by done.
  unfold modify_self at 1. cbn [self disk].
  unfold bind at 1, modify_self at 1. cbn [self disk].
  by rewrite (MemDB_open_ok _ _ f T).
Qed.

(** [MemDB()] followed by [replicate_from_smalldb(f)] *)
Lemma import_fresh d f T :
  shelf_at d f = Some T →
  script (MemDB.new None "rw") (MemDB.replicate_from_smalldb (Some f)) (boot d)
  = (Ok (Object "rw" (Some f) None T ∅), State blank (touch f d)).
Proof.
  intros HT. unfold script, boot.
  erewrite bind_ok by (apply MemDB_new_no_source; auto).
  unfold call_on. erewrite bind_ok; cycle 1.
  { cbn [disk self]. unfold MemDB.replicate_from_smalldb.
    unfold bind at 1, get at 1. cbn [self dbfile].
    by rewrite (MemDB_init_ok _ _ f T). }
  done.
Qed.

Lemma insert_touch f x d : <[f := x]> (touch f d) = <[f := x]> d.
Proof.
  unfold touch. destruct (d !! f); [done|]. by rewrite insert_insert_eq.
Qed.

(** [replicate_to_smalldb(f)]: the shelf at [f] ends with the staged
    contents under the logged names and what it had under the others. *)
Lemma replicate_to_ok o d f T :
  shelf_at d f = Some T →
  (∀ k, k ∈ log o → k ∈ dom (db_ref o) ∨ k ∈ dom T) →
  MemDB.replicate_to_smalldb (Some f) (State o d)
  = (Ok tt, State o (<[f := Shelf (committed o T)]> d)).
Proof.
  intros HT Hlog. unfold MemDB.replicate_to_smalldb.
  unfold bind at 1, get at 1.
  erewrite bind_ok by (apply (SmallDB_new_ok _ _ f "rw" T); auto).
  cbn [self disk]. unfold deepcopy.
  set (small := set_log (log o) (set_db_ref (db_ref o) _)).
  assert (mode small = "rw") as Hrw by done.
  assert (db small = Some (Handle f false)) as Hdb by done.
  assert (committed small T = committed o T) as Hc by done.
  pose proof (touch_lookup _ _ _ HT) as Hp.
  erewrite bind_ok by (by apply call_on_ok, (save_ok small _ f T)).
  cbn [snd]. rewrite insert_touch, Hc.
  destruct (decide (log small ∩ dom (db_ref small) = ∅)) as [He|Hne].
  - by erewrite bind_ok by (by apply call_on_ok, (close_clean _ _ (Handle f false))).
  - erewrite bind_ok; cycle 1.
    { apply call_on_ok, (close_dirty _ _ f (committed o T)); try done.
      - by rewrite lookup_insert_eq.
      - intros k Hk. cbn [log db_ref set_log] in *. set_solver. }
    unfold ret. by rewrite insert_insert_eq, <- Hc, committed_idem.
Qed.

(** * Export and import of a memory store *)

(** When [save] wrote or deleted every name on which the shelf differed
    from the staging area, the shelf holds the staging area. *)
Lemma committed_all o T : tracks T o → committed o T = db_ref o.
Proof.
  intros H. apply map_eq. intros k. rewrite lookup_committed.
  case_decide; [done|]. symmetry. by apply H.
Qed.

(** C8, the code at the failing input: [MemDB('src')] on a shelf that holds
    table [t] loads the table and logs nothing; [replicate_to_smalldb('dst')]
    on that store returns and leaves an empty shelf at [dst], since [save]
    writes logged names only; a new [MemDB] that imports [dst] has an empty
    staging area, which is not the staging area of the store that was
    exported.  The method's docstring promises a copy of the contents. *)
Theorem clean_import_exports_nothing :
  MemDB.new (Some "src") "rw" (boot {["src" := Shelf {["t" := {["k" := VInt 1]}]}]})
    = (Ok (Object "rw" (Some "src") None {["t" := {["k" := VInt 1]}]} ∅),
       boot {["src" := Shelf {["t" := {["k" := VInt 1]}]}]})
  ∧ MemDB.replicate_to_smalldb (Some "dst")
      (State (Object "rw" (Some "src") None {["t" := {["k" := VInt 1]}]} ∅)
             {["src" := Shelf {["t" := {["k" := VInt 1]}]}]})
    = (Ok tt,
       State (Object "rw" (Some "src") None {["t" := {["k" := VInt 1]}]} ∅)
             (<["dst" := Shelf ∅]> {["src" := Shelf {["t" := {["k" := VInt 1]}]}]}))
  ∧ script (MemDB.new None "rw") (MemDB.replicate_from_smalldb (Some "dst"))
      (boot (<["dst" := Shelf ∅]> {["src" := Shelf {["t" := {["k" := VInt 1]}]}]}))
    = (Ok (Object "rw" (Some "dst") None ∅ ∅),
       boot (<["dst" := Shelf ∅]> {["src" := Shelf {["t" := {["k" := VInt 1]}]}]}))
  ∧ db_ref (Object "rw" (Some "dst") None ∅ ∅)
    ≠ db_ref (Object "rw" (Some "src") None {["t" := {["k" := VInt 1]}]} ∅).
Proof.
  repeat split; try (vm_compute; reflexivity).
  intros H. apply (f_equal (λ m : gmap string (gmap string value), m !! "t")) in H.
  vm_compute in H. discriminate H.
Qed.

(** Where the export does copy: let the target path hold a shelf, or
    nothing.  If every name outside the log of the memory store has on the
    target shelf what it has in the staging area, and every logged name is
    staged or on the target shelf, then [replicate_to_smalldb] returns and
    leaves the staging area on the shelf, and a new [MemDB] that imports the
    path with [replicate_from_smalldb] holds a staging area equal to that of
    the store. *)
Lemma replicate_roundtrip (o : object) (d : gmap string file) (f : string)
    (T : gmap string (gmap string value)) :
  shelf_at d f = Some T →
  (∀ k, k ∉ log o → db_ref o !! k = T !! k) →
  (∀ k, k ∈ log o → k ∈ dom (db_ref o) ∨ k ∈ dom T) →
  MemDB.replicate_to_smalldb (Some f) (State o d)
    = (Ok tt, State o (<[f := Shelf (db_ref o)]> d))
  ∧ script (MemDB.new None "rw") (MemDB.replicate_from_smalldb (Some f))
      (boot (<[f := Shelf (db_ref o)]> d))
    = (Ok (Object "rw" (Some f) None (db_ref o) ∅),
       boot (<[f := Shelf (db_ref o)]> d)).
Proof.
  intros HT Hclean Hlog. split.
  - rewrite (replicate_to_ok _ _ _ T) by done. by rewrite committed_all.
  - rewrite (import_fresh _ f (db_ref o)).
    + unfold boot, touch. by rewrite lookup_insert_eq.
    + unfold shelf_at. by rewrite lookup_insert_eq.
Qed.

Lemma replicate_roundtrip_witness :
  MemDB.replicate_to_smalldb (Some "dst")
      (State (Object "rw" None None {["t" := {["k" := VInt 1]}]} {["t"]}) ∅)
    = (Ok tt,
       State (Object "rw" None None {["t" := {["k" := VInt 1]}]} {["t"]})
             (<["dst" := Shelf {["t" := {["k" := VInt 1]}]}]> ∅))
  ∧ script (MemDB.new None "rw") (MemDB.replicate_from_smalldb (Some "dst"))
      (boot (<["dst" := Shelf {["t" := {["k" := VInt 1]}]}]> ∅))
    = (Ok (Object "rw" (Some "dst") None {["t" := {["k" := VInt 1]}]} ∅),
       boot (<["dst" := Shelf {["t" := {["k" := VInt 1]}]}]> ∅)).
Proof.
  refine (replicate_roundtrip
            (Object "rw" None None {["t" := {["k" := VInt 1]}]} {["t"]}) ∅ "dst" ∅
            _ _ _).
  - reflexivity.
  - intros k Hk. cbn [log db_ref] in *.
    rewrite lookup_empty. apply lookup_singleton_ne.
    intros <-. apply Hk. by apply elem_of_singleton.
  - intros k Hk. cbn [log db_ref] in *. left.
    apply elem_of_singleton in Hk as ->.
    apply elem_of_dom. exists {["k" := VInt 1]}. apply lookup_singleton_eq.
Defined.

(** * What the calls on the staging area do *)

Lemma on_staging_touched c o d :
  mode o = "rw" → on_staging c = true →
  ∃ o', (SmallDB_call c (State o d)).2 = State o' d ∧ touched o o'.
Proof.
  intros Hrw Hc.
  destruct c as [tn|tn k v|tn k v|tn k v|tn k v|tn k|tn| |];
    try discriminate Hc; cbn [SmallDB_call].
  - rewrite create_table_rw by done. eauto using touched.
  - unfold SmallDB.insert. destruct (db_ref o !! tn) as [t|] eqn:Ht.
    + rewrite (insert_rec_present _ _ _ _ _ _ t) by done.
      destruct (t !! k); eauto using touched.
    + rewrite insert_rec_absent by done. eauto using touched.
  - destruct (db_ref o !! tn) as [t|] eqn:Ht.
    + rewrite (update_rw _ _ _ _ _ t) by done. eauto using touched.
    + rewrite update_no_table by done. eauto using touched.
  - rewrite append_rw by done.
    destruct (db_ref o !! tn) as [t|]; [|eauto using touched].
    destruct (t !! k) as [[]|]; eauto using touched.
  - rewrite add_rw by done.
    destruct (db_ref o !! tn) as [t|]; [|eauto using touched].
    destruct (t !! k) as [x|]; [|eauto using touched].
    destruct (obj_iadd x v); eauto using touched.
  - rewrite remove_rw by done.
    destruct (db_ref o !! tn) as [t|]; [|eauto using touched].
    destruct (t !! k); eauto using touched.
  - rewrite remove_table_rw by done.
    destruct (db_ref o !! tn) as [t|]; eauto using touched.
Qed.

(** A call on a table that returns has the name of the table in the log. *)
Lemma returned_call_logs_table c o d o' d' tn :
  mode o = "rw" → table_of c = Some tn →
  SmallDB_call c (State o d) = (Ok tt, State o' d') →
  tn ∈ log o'.
Proof.
  intros Hrw Htn.
  destruct c as [t|t k v|t k v|t k v|t k v|t k|t| |];
    try discriminate Htn; injection Htn as ->; cbn [SmallDB_call].
  - rewrite create_table_rw by done. intros [= <- <-]. cbn. set_solver.
  - unfold SmallDB.insert. destruct (db_ref o !! tn) as [t|] eqn:Ht.
    + rewrite (insert_rec_present _ _ _ _ _ _ t) by done.
      destruct (t !! k); [done|]. intros [= <- <-]. cbn. set_solver.
    + rewrite insert_rec_absent by done. intros [= <- <-]. cbn. set_solver.
  - destruct (db_ref o !! tn) as [t|] eqn:Ht.
    + rewrite (update_rw _ _ _ _ _ t) by done. intros [= <- <-]. cbn. set_solver.
    + by rewrite update_no_table.
  - rewrite append_rw by done.
    destruct (db_ref o !! tn) as [t|]; [|done].
    destruct (t !! k) as [[]|]; try done; intros [= <- <-]; cbn; set_solver.
  - rewrite add_rw by done.
    destruct (db_ref o !! tn) as [t|]; [|done].
    destruct (t !! k) as [x|]; [|done].
    destruct (obj_iadd x v); [|done]. intros [= <- <-]. cbn. set_solver.
  - rewrite remove_rw by done.
    destruct (db_ref o !! tn) as [t|]; [|done].
    destruct (t !! k); [|done]. intros [= <- <-]. cbn. set_solver.
  - rewrite remove_table_rw by done.
    destruct (db_ref o !! tn) as [t|]; [|done]. intros [= <- <-]. cbn. set_solver.
Qed.

Lemma touched_frame o o' :
  touched o o' → mode o' = mode o ∧ dbfile o' = dbfile o ∧ db o' = db o.
Proof. by destruct 1. Qed.

(** A touched table has its name in the log, so the log goes on tracking
    what it tracked. *)
Lemma touched_tracks T o o' : touched o o' → tracks T o → tracks T o'.
Proof.
  intros Ht Htr. destruct Ht as [|tn t|tn|tn]; [done|..]; intros k Hk; cbn in *.
  - rewrite lookup_insert_ne by set_solver. apply Htr. set_solver.
  - apply Htr. set_solver.
  - rewrite lookup_delete_ne by set_solver. apply Htr. set_solver.
Qed.

(** Whatever was logged stays logged. *)
Lemma touched_log o o' : touched o o' → log o ⊆ log o'.
Proof. destruct 1; cbn; set_solver. Qed.

(** * drop *)

Lemma MemDB_drop_ok o d :
  mode o = "rw" → dbfile o = None →
  MemDB.drop (State o d) = (Ok tt, State (Object "rw" None (db o) ∅ ∅) d).
Proof.
  intros Hrw Hf. unfold MemDB.drop, SmallDB.drop. enter_rw Hrw.
  unfold bind at 1, get at 1. cbn [self]. rewrite Hf.
  unfold MemDB.__init__, SmallDB.__init__.
  replace (bool_decide ("rw" ≠ "ro") && bool_decide ("rw" ≠ "rw")) with false by done.
  unfold bind at 1, modify_self at 1. cbn [self disk].
  unfold bind at 1, modify_self at 1. cbn [self disk].
  unfold MemDB.__open__. unfold bind at 1.
  unfold bind at 1, get at 1. cbn [self dbfile set_dbfile].
  done.
Qed.

(** [drop] on a [MemDB] with a source imports the source again. *)
Lemma MemDB_drop_source o d f T :
  mode o = "rw" → dbfile o = Some f → shelf_at d f = Some T →
  MemDB.drop (State o d) = (Ok tt, State (Object "rw" (Some f) (db o) T ∅) (touch f d)).
Proof.
  intros Hrw Hf HT. unfold MemDB.drop, SmallDB.drop. enter_rw Hrw.
  unfold bind at 1, get at 1. cbn [self]. rewrite Hf.
  by rewrite (MemDB_init_ok _ _ f T).
Qed.

(** [drop] on a [SmallDB] reloads the shelf. *)
Lemma SmallDB_drop_ok o d f T :
  mode o = "rw" → dbfile o = Some f → shelf_at d f = Some T →
  SmallDB_drop (State o d)
  = (Ok tt, State (Object "rw" (Some f) (Some (Handle f false)) T ∅) (touch f d)).
Proof.
  intros Hrw Hf HT. unfold SmallDB_drop, SmallDB.drop. enter_rw Hrw.
  unfold bind at 1, get at 1. cbn [self]. rewrite Hf.
  unfold SmallDB.__init__.
  replace (bool_decide ("rw" ≠ "ro") && bool_decide ("rw" ≠ "rw")) with false by done.
  unfold bind at 1, modify_self at 1. cbn [self disk].
  unfold bind at 1, modify_self at 1. cbn [self disk].
  by rewrite (SmallDB_open_ok _ _ f T); auto.
Qed.

(** No call changes the mode of a [MemDB] without a source or gives it
    one, and none touches the disk. *)
Lemma MemDB_call_sourceless c o d :
  sourceless o →
  ∃ o', (MemDB_call c (State o d)).2 = State o' d ∧ sourceless o'.
Proof.
  intros (Hrw & Hf & Hdb & Htr).
  destruct (on_staging c) eqn:Hc.
  - rewrite MemDB_call_on_staging by done.
    destruct (on_staging_touched c o d Hrw Hc) as (o' & -> & Ht).
    exists o'. split; [done|].
    destruct (touched_frame _ _ Ht) as (Hm' & Hf' & Hdb').
    repeat split; try congruence. by apply (touched_tracks _ o).
  - destruct c; try discriminate Hc; cbn [MemDB_call].
    + exists o. by repeat split.
    + rewrite MemDB_drop_ok by done. eexists. split; [done|].
      rewrite Hdb. by repeat split.
Qed.

Lemma exec_sourceless cs : ∀ o d,
  sourceless o →
  ∃ o', exec MemDB_call cs (State o d) = State o' d ∧ sourceless o'.
Proof.
  induction cs as [|c cs IH]; intros o d Hs; [by eauto|].
  unfold exec. cbn [foldl].
  destruct (MemDB_call_sourceless c o d Hs) as (o1 & -> & Hs1).
  by apply IH.
Qed.

(** [drop] on a read-only memory store raises. *)
Lemma drop_read_only_MemDB_raises :
  MemDB.new None "ro" (boot ∅) = (Ok (Object "ro" None None ∅ ∅), boot ∅)
  ∧ MemDB.drop (State (Object "ro" None None ∅ ∅) ∅)
    = (Raise ReadOnlyDatabaseError, State (Object "ro" None None ∅ ∅) ∅).
Proof. split; vm_compute; reflexivity. Qed.

(** * The staging area and the shelf *)


(** The second loop of [save], whether it gets to its end or not: each
    name has on the shelf what it had, or what is staged under it. *)
Lemma write_loop_any ks : ∀ o d p T,
  db o = Some (Handle p false) →
  d !! p = Some (Shelf T) →
  ∃ r T', for_each ks SmallDB.save_write (State o d)
            = (r, State o (<[p := Shelf T']> d))
          ∧ ∀ k, T' !! k = T !! k ∨ (k ∈ ks ∧ T' !! k = db_ref o !! k).
Proof.
  induction ks as [|k ks IH]; intros o d p T Hdb Hp.
  - exists (Ok tt), T. split; [|by left].
    cbn [for_each]. unfold ret. by rewrite insert_id.
  - cbn [for_each]. unfold bind at 1.
    rewrite (save_write_step _ _ p T) by done.
    destruct (db_ref o !! k) as [t|] eqn:Ht.
    + destruct (IH o (<[p := Shelf (<[k := t]> T)]> d) p (<[k := t]> T))
        as (r & T' & Hrun & HT'); [done|by rewrite lookup_insert_eq|].
      exists r, T'. rewrite Hrun, insert_insert_eq. split; [done|].
      intros i. destruct (HT' i) as [Hi|[Hi1 Hi2]].
      * destruct (decide (i = k)) as [->|Hne].
        -- right. rewrite lookup_insert_eq in Hi. split; [set_solver|congruence].
        -- left. by rewrite lookup_insert_ne in Hi.
      * right. split; [set_solver|done].
    + exists (Raise KeyError), T. split; [|by left]. by rewrite insert_id.
Qed.

(** [save] keeps the store synced, also when it raises half way. *)
Lemma synced_save f st : synced f st → synced f (SmallDB.save st).2.
Proof.
  destruct st as [o d]. intros (Hrw & Hf & Hdb & T & Hp & Hs).
  cbn [self disk] in *.
  unfold SmallDB.save. enter_rw Hrw.
  rewrite (bind_ok _ _ _ _ _ (self_db_ok _ _ _ Hdb)).
  rewrite (bind_ok _ _ _ _ _ (keys_ok _ _ _ _ Hp)).
  erewrite bind_ok; cycle 1.
  { apply (prune_loop _ _ _ f T); try done.
    - apply NoDup_elements.
    - intros k Hk. apply elem_of_elements in Hk. by apply elem_of_dom. }
  unfold bind at 1, get at 1. cbn [self].
  edestruct (write_loop_any
    (elements (log (set_log (log o ∖ pruned (elements (dom T)) o) o)))
    (set_log (log o ∖ pruned (elements (dom T)) o) o))
    as (r & T' & Hrun & HT'); [exact Hdb|by apply lookup_insert_eq|].
  rewrite Hrun. cbn [snd]. repeat split; try done.
  exists T'. cbn [self disk]. split.
  { by rewrite insert_insert_eq, lookup_insert_eq. }
  intros k Hk. cbn [log db_ref set_log] in *.
  destruct (HT' k) as [Hi|[Hi1 Hi2]].
  - rewrite Hi, lookup_without. unfold pruned in *.
    rewrite list_to_set_elements_L in *.
    case_decide as Hpr.
    + apply not_elem_of_dom. set_solver.
    + apply Hs. intros HkL. apply Hk. set_solver.
  - apply elem_of_elements in Hi1. done.
Qed.

(** Every data-changing call keeps a store synced, whether it returns or
    raises. *)
Lemma synced_call f c st : synced f st → synced f (SmallDB_call c st).2.
Proof.
  destruct st as [o d]. intros Hs.
  destruct (on_staging c) eqn:Hc.
  - destruct Hs as (Hrw & Hf & Hdb & T & Hp & Htr). cbn [self disk] in *.
    destruct (on_staging_touched c o d Hrw Hc) as (o' & -> & Ht).
    destruct (touched_frame _ _ Ht) as (Hm' & Hf' & Hdb').
    repeat split; cbn [self disk]; try congruence.
    exists T. split; [done|]. by apply (touched_tracks _ o).
  - destruct c; try discriminate Hc; cbn [SmallDB_call].
    + by apply synced_save.
    + destruct Hs as (Hrw & Hf & Hdb & T & Hp & Hs). cbn [self disk] in *.
      assert (shelf_at d f = Some T) as HT by (unfold shelf_at; by rewrite Hp).
      rewrite (SmallDB_drop_ok _ _ f T) by done.
      repeat split; try done. exists T. split; [|done].
      cbn. by apply touch_lookup.
Qed.

Lemma synced_exec f cs : ∀ st, synced f st → synced f (exec SmallDB_call cs st).
Proof.
  induction cs as [|c cs IH]; intros st Hs; [done|].
  unfold exec. cbn [foldl]. by apply IH, synced_call.
Qed.

(** On a synced store [save] returns exactly when every logged name is
    staged or on the shelf. *)
Lemma save_returns o d f T :
  mode o = "rw" →
  db o = Some (Handle f false) →
  d !! f = Some (Shelf T) →
  (∃ st', SmallDB.save (State o d) = (Ok tt, st'))
  ↔ (∀ k, k ∈ log o → k ∈ dom (db_ref o) ∨ k ∈ dom T).
Proof.
  intros Hrw Hdb Hp. split.
  - intros (st' & Hsave).
    destruct (decide (set_Forall (λ k, k ∈ dom (db_ref o) ∨ k ∈ dom T) (log o)))
      as [Hall|Hnot]; [done|].
    apply not_set_Forall_Exists in Hnot; [|apply _].
    destruct Hnot as (k & HkL & Hk). cbn in Hk.
    destruct (save_KeyError o d f T k) as (st'' & Hraise & _); try done.
    + intros ?. apply Hk. by left.
    + intros ?. apply Hk. by right.
    + congruence.
  - intros Hlog. eexists. by apply (save_ok _ _ f T).
Qed.

(** A [save] that returns on a synced store leaves the staging area on
    the shelf as its handle sees it, which is what the disk holds once the
    handle is closed: opening that disk, in either mode, loads the tables,
    keys and objects that were staged.  [close_reopen] goes through this
    step. *)
Lemma save_reopen f o d o' d' m o0 :
  synced f (State o d) →
  SmallDB.save (State o d) = (Ok tt, State o' d') →
  m = "ro" ∨ m = "rw" →
  db_ref o' = db_ref o
  ∧ SmallDB.new (Some f) m (State o0 d')
    = (Ok (Object m (Some f) (Some (Handle f (bool_decide (m = "ro")))) (db_ref o) ∅),
       State o0 d').
Proof.
  intros (Hrw & Hf & Hdb & T & Hp & Hs) Hsave Hm. cbn [self disk] in *.
  assert (∀ k, k ∈ log o → k ∈ dom (db_ref o) ∨ k ∈ dom T) as Hlog.
  { apply (save_returns o d f T); eauto. }
  rewrite (save_ok _ _ f T) in Hsave by done.
  injection Hsave as <- <-. split; [done|].
  rewrite committed_all by done.
  rewrite (SmallDB_new_ok _ _ f m (db_ref o)); [|done|].
  - unfold touch. by rewrite lookup_insert_eq.
  - unfold shelf_at. by rewrite lookup_insert_eq.
Qed.

(** * Where the export of a memory store round-trips *)

(** Exporting to the default target is exporting to the source. *)
Lemma replicate_to_default o d f :
  dbfile o = Some f →
  MemDB.replicate_to_smalldb None (State o d)
  = MemDB.replicate_to_smalldb (Some f) (State o d).
Proof.
  intros Hf. unfold MemDB.replicate_to_smalldb, bind, get.
  cbn [self]. by rewrite Hf.
Qed.

(** [MemDB(f, 'rw')] *)
Lemma MemDB_new_source o0 d f T :
  shelf_at d f = Some T →
  MemDB.new (Some f) "rw" (State o0 d)
  = (Ok (Object "rw" (Some f) None T ∅), State o0 (touch f d)).
Proof.
  intros HT. unfold MemDB.new, construct. cbn [disk self].
  by rewrite (MemDB_init_ok _ _ f T).
Qed.

Lemma touch_present d f x : d !! f = Some x → touch f d = d.
Proof. intros H. unfold touch. by rewrite H. Qed.

(** The calls keep a store with a source imported from it: none writes
    the disk, and [drop] imports the source again. *)
Lemma MemDB_call_imported f T c st :
  imported f T st → imported f T (MemDB_call c st).2.
Proof.
  destruct st as [o d]. intros (Hrw & Hf & Hdb & Hp & Htr). cbn [self disk] in *.
  destruct (on_staging c) eqn:Hc.
  - rewrite MemDB_call_on_staging by done.
    destruct (on_staging_touched c o d Hrw Hc) as (o' & -> & Ht).
    destruct (touched_frame _ _ Ht) as (Hm' & Hf' & Hdb').
    repeat split; cbn [self disk snd]; try congruence.
    by apply (touched_tracks _ o).
  - destruct c; try discriminate Hc; cbn [MemDB_call].
    + by repeat split.
    + assert (shelf_at d f = Some T) as HT by (unfold shelf_at; by rewrite Hp).
      rewrite (MemDB_drop_source _ _ f T) by done.
      rewrite (touch_present _ _ _ Hp). by repeat split.
Qed.

Lemma exec_imported f T cs : ∀ st,
  imported f T st → imported f T (exec MemDB_call cs st).
Proof.
  induction cs as [|c cs IH]; intros st Hs; [done|].
  unfold exec. cbn [foldl]. by apply IH, MemDB_call_imported.
Qed.

(** Copying back: a store built from the source [f] is changed by any
    calls and exported to its source.  When every logged name is staged or on
    the source shelf, the export returns and a new store that imports [f]
    holds the staging area of the first. *)
Lemma copy_back_roundtrip d f T cs o0 :
  d !! f = Some (Shelf T) →
  ∃ o, MemDB.new (Some f) "rw" (State o0 d) = (Ok o, State o0 d)
    ∧ ∀ o1 d1,
        exec MemDB_call cs (State o d) = State o1 d1 →
        (∀ k, k ∈ log o1 → k ∈ dom (db_ref o1) ∨ k ∈ dom T) →
        MemDB.replicate_to_smalldb None (State o1 d1)
          = (Ok tt, State o1 (<[f := Shelf (db_ref o1)]> d1))
        ∧ script (MemDB.new None "rw") (MemDB.replicate_from_smalldb (Some f))
            (boot (<[f := Shelf (db_ref o1)]> d1))
          = (Ok (Object "rw" (Some f) None (db_ref o1) ∅),
             boot (<[f := Shelf (db_ref o1)]> d1)).
Proof.
  intros Hp.
  assert (shelf_at d f = Some T) as HT by (unfold shelf_at; by rewrite Hp).
  eexists. split.
  { rewrite (MemDB_new_source _ _ f T) by done. by rewrite (touch_present _ _ _ Hp). }
  intros o1 d1 Hexec Hlog.
  assert (imported f T (State o1 d1)) as (Hrw & Hf & Hdb & Hp1 & Htr).
  { rewrite <- Hexec. apply exec_imported. by repeat split. }
  cbn [self disk] in *.
  assert (shelf_at d1 f = Some T) as HT1 by (unfold shelf_at; by rewrite Hp1).
  split.
  - rewrite (replicate_to_default _ _ f) by done.
    rewrite (replicate_to_ok _ _ f T) by done. by rewrite committed_all.
  - rewrite (import_fresh _ f (db_ref o1)).
    + unfold boot, touch. by rewrite lookup_insert_eq.
    + unfold shelf_at. by rewrite lookup_insert_eq.
Qed.

(** Exporting a store that never had a source to a path that holds
    nothing: when every logged name is staged, the export returns and a new
    store that imports the path holds the staging area of the first. *)
Lemma new_path_roundtrip d f cs :
  d !! f = None →
  ∀ o1 d1,
    exec MemDB_call cs (State (Object "rw" None None ∅ ∅) d) = State o1 d1 →
    (∀ k, k ∈ log o1 → k ∈ dom (db_ref o1)) →
    MemDB.replicate_to_smalldb (Some f) (State o1 d1)
      = (Ok tt, State o1 (<[f := Shelf (db_ref o1)]> d1))
    ∧ script (MemDB.new None "rw") (MemDB.replicate_from_smalldb (Some f))
        (boot (<[f := Shelf (db_ref o1)]> d1))
      = (Ok (Object "rw" (Some f) None (db_ref o1) ∅),
         boot (<[f := Shelf (db_ref o1)]> d1)).
Proof.
  intros Hp o1 d1 Hexec Hlog.
  destruct (exec_sourceless cs (Object "rw" None None ∅ ∅) d) as (o' & Ho' & Hs);
    [done|].
  rewrite Hexec in Ho'. injection Ho' as -> ->.
  destruct Hs as (Hrw & Hf & Hdb & Htr).
  assert (shelf_at d f = Some ∅) as HT by (unfold shelf_at; by rewrite Hp).
  split.
  - rewrite (replicate_to_ok _ _ f ∅); [|done|by left; apply Hlog].
    by rewrite committed_all.
  - rewrite (import_fresh _ f (db_ref o')).
    + unfold boot, touch. by rewrite lookup_insert_eq.
    + unfold shelf_at. by rewrite lookup_insert_eq.
Qed.

(** * Reading back what the calls stored *)

Lemma select_stage o d tn t k :
  SmallDB.select tn (Some k) (State (stage tn t o) d) =
    match t !! k with
    | Some v => (Ok v, State (stage tn t o) d)
    | None => (Raise DBKeyError, State (stage tn t o) d)
    end.
Proof.
  rewrite select_key. unfold stage. cbn [db_ref mark set_log set_db_ref].
  by rewrite lookup_insert_eq.
Qed.

Lemma stage_other o tn t tn' :
  tn' ≠ tn → db_ref (stage tn t o) !! tn' = db_ref o !! tn'.
Proof. intros Hne. unfold stage. cbn. by rewrite lookup_insert_ne. Qed.

Lemma stage_this o tn t : db_ref (stage tn t o) !! tn = Some t.
Proof. unfold stage. cbn. by rewrite lookup_insert_eq. Qed.

(** What [insert] makes of the instance when it returns. *)
Lemma insert_returns o d tn k v o' d' :
  mode o = "rw" →
  SmallDB.insert tn k v (State o d) = (Ok tt, State o' d') →
  d' = d
  ∧ ((db_ref o !! tn = None ∧ o' = stage tn {[k := v]} o)
     ∨ ∃ t, db_ref o !! tn = Some t ∧ t !! k = None
            ∧ o' = stage tn (<[k := v]> t) o).
Proof.
  intros Hrw. unfold SmallDB.insert.
  destruct (db_ref o !! tn) as [t|] eqn:Ht.
  - rewrite (insert_rec_present _ _ _ _ _ _ t) by done.
    destruct (t !! k) eqn:Hk; [done|]. intros [= <- <-]. split; [done|].
    right. by exists t.
  - rewrite insert_rec_absent by done. intros [= <- <-]. split; [done|].
    by left.
Qed.

(** X1: when [insert] returns on a read-write store, [select] of the table
    and key gives the inserted object, the disk is as it was, every other
    table is as it was, and so is every other key of the table. *)
Theorem insert_then_select (o : object) (d : gmap string file) (tn k : string)
    (v : value) (o' : object) (d' : gmap string file) :
  mode o = "rw" →
  SmallDB.insert tn k v (State o d) = (Ok tt, State o' d') →
  SmallDB.select tn (Some k) (State o' d') = (Ok v, State o' d')
  ∧ d' = d
  ∧ (∀ tn', tn' ≠ tn → db_ref o' !! tn' = db_ref o !! tn')
  ∧ (∀ k', k' ≠ k →
       db_ref o' !! tn ≫= (.!! k') = db_ref o !! tn ≫= (.!! k')).
Proof.
  intros Hrw Hins.
  destruct (insert_returns _ _ _ _ _ _ _ Hrw Hins)
    as (-> & [(Ht & ->)|(t & Ht & Hk & ->)]).
  - rewrite select_stage, lookup_singleton_eq. repeat split; try done.
    + intros tn' Hne. by apply stage_other.
    + intros k' Hne. rewrite stage_this, Ht. cbn.
      by apply lookup_singleton_ne.
  - rewrite select_stage, lookup_insert_eq. repeat split; try done.
    + intros tn' Hne. by apply stage_other.
    + intros k' Hne. rewrite stage_this, Ht. cbn.
      by apply lookup_insert_ne.
Qed.

Lemma insert_then_select_witness :
  SmallDB.select "users" (Some "2")
      (State (stage "users" (<["2" := VStr "bob"]> demo_users) demo_store) demo_disk)
    = (Ok (VStr "bob"),
       State (stage "users" (<["2" := VStr "bob"]> demo_users) demo_store) demo_disk)
  ∧ demo_disk = demo_disk
  ∧ (∀ tn', tn' ≠ "users" →
       db_ref (stage "users" (<["2" := VStr "bob"]> demo_users) demo_store) !! tn'
       = db_ref demo_store !! tn')
  ∧ (∀ k', k' ≠ "2" →
       db_ref (stage "users" (<["2" := VStr "bob"]> demo_users) demo_store) !! "users"
         ≫= (.!! k')
       = db_ref demo_store !! "users" ≫= (.!! k')).
Proof.
  exact (insert_then_select demo_store demo_disk "users" "2" (VStr "bob")
           (stage "users" (<["2" := VStr "bob"]> demo_users) demo_store) demo_disk
           eq_refl eq_refl).
Defined.

(** X2: when [update] returns on a read-write store, [select] of the table
    and key gives the new object, whether the key was there before or not;
    every other table and every other key of the table is as it was. *)
Theorem update_then_select (o : object) (d : gmap string file) (tn k : string)
    (v : value) (o' : object) (d' : gmap string file) :
  mode o = "rw" →
  SmallDB.update tn k v (State o d) = (Ok tt, State o' d') →
  SmallDB.select tn (Some k) (State o' d') = (Ok v, State o' d')
  ∧ d' = d
  ∧ (∀ tn', tn' ≠ tn → db_ref o' !! tn' = db_ref o !! tn')
  ∧ (∀ k', k' ≠ k →
       db_ref o' !! tn ≫= (.!! k') = db_ref o !! tn ≫= (.!! k')).
Proof.
  intros Hrw. destruct (db_ref o !! tn) as [t|] eqn:Ht.
  - rewrite (update_rw _ _ _ _ _ t) by done. intros [= <- <-].
    rewrite select_stage, lookup_insert_eq. repeat split; try done.
    + intros tn' Hne. by apply stage_other.
    + intros k' Hne. rewrite stage_this. cbn. by apply lookup_insert_ne.
  - by rewrite update_no_table.
Qed.

Lemma update_then_select_witness :
  SmallDB.select "users" (Some "1")
      (State (stage "users" (<["1" := VStr "carol"]> demo_users) demo_store) demo_disk)
    = (Ok (VStr "carol"),
       State (stage "users" (<["1" := VStr "carol"]> demo_users) demo_store) demo_disk).
Proof.
  exact (proj1 (update_then_select demo_store demo_disk "users" "1" (VStr "carol")
           (stage "users" (<["1" := VStr "carol"]> demo_users) demo_store) demo_disk
           eq_refl eq_refl)).
Defined.

(** X3: when [remove] returns on a read-write store, the key is gone:
    [select] of it raises [DBKeyError]; the table is still staged, and every
    other table and every other key of the table is as it was. *)
Theorem remove_then_select (o : object) (d : gmap string file) (tn k : string)
    (o' : object) (d' : gmap string file) :
  mode o = "rw" →
  SmallDB.remove tn k (State o d) = (Ok tt, State o' d') →
  SmallDB.select tn (Some k) (State o' d') = (Raise DBKeyError, State o' d')
  ∧ d' = d
  ∧ (∀ tn', tn' ≠ tn → db_ref o' !! tn' = db_ref o !! tn')
  ∧ (∀ k', k' ≠ k →
       db_ref o' !! tn ≫= (.!! k') = db_ref o !! tn ≫= (.!! k')).
Proof.
  intros Hrw. rewrite remove_rw by done.
  destruct (db_ref o !! tn) as [t|] eqn:Ht; [|done].
  destruct (t !! k) eqn:Hk; [|done]. intros [= <- <-].
  rewrite select_stage, lookup_delete_eq. repeat split; try done.
  - intros tn' Hne. by apply stage_other.
  - intros k' Hne. rewrite stage_this. cbn. by apply lookup_delete_ne.
Qed.

Lemma remove_then_select_witness :
  SmallDB.select "users" (Some "1")
      (State (stage "users" (delete "1" demo_users) demo_store) demo_disk)
    = (Raise DBKeyError,
       State (stage "users" (delete "1" demo_users) demo_store) demo_disk).
Proof.
  exact (proj1 (remove_then_select demo_store demo_disk "users" "1"
           (stage "users" (delete "1" demo_users) demo_store) demo_disk
           eq_refl eq_refl)).
Defined.

(** X4: when [remove_table] returns on a read-write store, the table is
    gone from the staging area: [select], with or without a key, and [keys]
    raise [TableReferenceError] and [tables] does not list the name; every
    other table is as it was. *)
Theorem remove_table_then_reads (o : object) (d : gmap string file) (tn : string)
    (o' : object) (d' : gmap string file) :
  mode o = "rw" →
  SmallDB.remove_table tn (State o d) = (Ok tt, State o' d') →
  (∀ key, SmallDB.select tn key (State o' d')
          = (Raise TableReferenceError, State o' d'))
  ∧ SmallDB.keys tn (State o' d') = (Raise TableReferenceError, State o' d')
  ∧ (∀ l, SmallDB.tables (State o' d') = (Ok l, State o' d') → tn ∉ l)
  ∧ d' = d
  ∧ (∀ tn', tn' ≠ tn → db_ref o' !! tn' = db_ref o !! tn').
Proof.
  intros Hrw. rewrite remove_table_rw by done.
  destruct (db_ref o !! tn) as [t|] eqn:Ht; [|done]. intros [= <- <-].
  assert (db_ref (mark tn (set_db_ref (delete tn (db_ref o)) o)) !! tn = None)
    as Hgone by (cbn; apply lookup_delete_eq).
  repeat split; try done.
  - intros key. unfold SmallDB.select. unfold_m. cbn [self].
    rewrite Hgone. by destruct key.
  - unfold SmallDB.keys. unfold_m. cbn [self]. by rewrite Hgone.
  - intros l. unfold SmallDB.tables. unfold_m. cbn [self].
    intros [= <-]. rewrite elem_of_elements. by apply not_elem_of_dom.
  - intros tn' Hne. cbn. by apply lookup_delete_ne.
Qed.

Lemma remove_table_then_reads_witness :
  SmallDB.keys "users"
      (State (mark "users" (set_db_ref (delete "users" (db_ref demo_store)) demo_store))
             demo_disk)
    = (Raise TableReferenceError,
       State (mark "users" (set_db_ref (delete "users" (db_ref demo_store)) demo_store))
             demo_disk).
Proof.
  exact (proj1 (proj2 (remove_table_then_reads demo_store demo_disk "users"
           (mark "users" (set_db_ref (delete "users" (db_ref demo_store)) demo_store))
           demo_disk eq_refl eq_refl))).
Defined.

(** X5: [create_table] on a read-write store always returns.  The table is
    then staged and empty, also when a table of that name held records
    before: [keys] gives no key and [select] without a key no object.  Every
    other table is as it was, and the name is logged. *)
Theorem create_table_resets (o : object) (d : gmap string file) (tn : string) :
  mode o = "rw" →
  ∃ o', SmallDB.create_table tn (State o d) = (Ok tt, State o' d)
        ∧ SmallDB.keys tn (State o' d) = (Ok [], State o' d)
        ∧ SmallDB.select tn None (State o' d) = (Ok (VList []), State o' d)
        ∧ (∀ tn', tn' ≠ tn → db_ref o' !! tn' = db_ref o !! tn')
        ∧ tn ∈ log o'.
Proof.
  intros Hrw. exists (stage tn ∅ o). rewrite create_table_rw by done.
  repeat split.
  - unfold SmallDB.keys. unfold_m. cbn [self]. rewrite stage_this.
    by rewrite dom_empty_L, elements_empty.
  - unfold SmallDB.select. unfold_m. cbn [self]. rewrite stage_this.
    by rewrite map_to_list_empty.
  - intros tn' Hne. by apply stage_other.
  - cbn. set_solver.
Qed.

Lemma create_table_resets_witness :
  ∃ o', SmallDB.create_table "users" (State demo_store demo_disk)
          = (Ok tt, State o' demo_disk)
        ∧ SmallDB.keys "users" (State o' demo_disk) = (Ok [], State o' demo_disk)
        ∧ SmallDB.select "users" None (State o' demo_disk)
          = (Ok (VList []), State o' demo_disk)
        ∧ (∀ tn', tn' ≠ "users" → db_ref o' !! tn' = db_ref demo_store !! tn')
        ∧ "users" ∈ log o'.
Proof. exact (create_table_resets demo_store demo_disk "users" eq_refl). Defined.

(** X6: [append] on a record that stores a list returns, and [select] of
    the record then gives the list with the object at its end; the table is
    logged and the disk is as it was. *)
Theorem append_then_select (o : object) (d : gmap string file) (tn k : string)
    (obj : value) (t : gmap string value) (l : list value) :
  mode o = "rw" →
  db_ref o !! tn = Some t →
  t !! k = Some (VList l) →
  ∃ o', SmallDB.append tn k obj (State o d) = (Ok tt, State o' d)
        ∧ SmallDB.select tn (Some k) (State o' d) = (Ok (VList (l ++ [obj])), State o' d)
        ∧ tn ∈ log o'.
Proof.
  intros Hrw Ht Hk. eexists. rewrite append_rw by done. rewrite Ht, Hk.
  split; [done|]. rewrite select_stage, lookup_insert_eq. split; [done|].
  cbn. set_solver.
Qed.

Lemma append_then_select_witness :
  ∃ o', SmallDB.append "t" "k" (VInt 3)
          (State (Object "rw" None None {["t" := {["k" := VList [VInt 1; VInt 2]]}]} ∅) ∅)
          = (Ok tt, State o' ∅)
        ∧ SmallDB.select "t" (Some "k") (State o' ∅)
          = (Ok (VList ([VInt 1; VInt 2] ++ [VInt 3])), State o' ∅)
        ∧ "t" ∈ log o'.
Proof.
  exact (append_then_select
           (Object "rw" None None {["t" := {["k" := VList [VInt 1; VInt 2]]}]} ∅) ∅
           "t" "k" (VInt 3) {["k" := VList [VInt 1; VInt 2]]} [VInt 1; VInt 2]
           eq_refl eq_refl eq_refl).
Defined.

(** X7: [add] on a record whose object takes [+=] with the given one
    returns, and [select] of the record then gives the combined object: the
    sum of two integers, the concatenation of two strings or of two lists. *)
Theorem add_then_select (o : object) (d : gmap string file) (tn k : string)
    (obj x y : value) (t : gmap string value) :
  mode o = "rw" →
  db_ref o !! tn = Some t →
  t !! k = Some x →
  obj_iadd x obj = Ok y →
  (∃ o', SmallDB.add tn k obj (State o d) = (Ok tt, State o' d)
         ∧ SmallDB.select tn (Some k) (State o' d) = (Ok y, State o' d)
         ∧ tn ∈ log o')
  ∧ match x, obj with
    | VInt a, VInt b => y = VInt (a + b)
    | VStr a, VStr b => y = VStr (a ++ b)
    | VList a, VList b => y = VList (a ++ b)
    | _, _ => True
    end.
Proof.
  intros Hrw Ht Hk Hy. split.
  - eexists. rewrite add_rw by done. rewrite Ht, Hk, Hy.
    split; [done|]. rewrite select_stage, lookup_insert_eq. split; [done|].
    cbn. set_solver.
  - destruct x, obj; try done; cbn in Hy; congruence.
Qed.

Lemma add_then_select_witness :
  ∃ o', SmallDB.add "t" "k" (VInt 2)
          (State (Object "rw" None None {["t" := {["k" := VInt 40]}]} ∅) ∅)
          = (Ok tt, State o' ∅)
        ∧ SmallDB.select "t" (Some "k") (State o' ∅) = (Ok (VInt 42), State o' ∅)
        ∧ "t" ∈ log o'.
Proof.
  exact (proj1 (add_then_select
           (Object "rw" None None {["t" := {["k" := VInt 40]}]} ∅) ∅
           "t" "k" (VInt 2) (VInt 40) (VInt 42) {["k" := VInt 40]}
           eq_refl eq_refl eq_refl eq_refl)).
Defined.



(** * Listing *)

(** The objects of a list of records are those stored under its keys. *)
Lemma values_along_keys (t : gmap string value) (kvs : list (string * value)) :
  (∀ kv, kv ∈ kvs → t !! kv.1 = Some kv.2) →
  Forall2 (λ k v, t !! k = Some v) kvs.*1 kvs.*2.
Proof.
  induction kvs as [|kv kvs IH]; intros H; cbn; constructor.
  - apply H. by left.
  - apply IH. intros kv' Hkv'. apply H. by right.
Qed.

(** [select] without a key on a staged table returns the objects of the
    table, one for each key: there is a list of the keys of the table, each
    key once, such that the result holds at each position the object stored
    under the key at that position.  On a table that is not staged it raises
    [TableReferenceError].  Nothing is changed. *)
Lemma select_all_spec (o : object) (d : gmap string file) (tn : string) :
  match db_ref o !! tn with
  | Some t =>
      ∃ ks l, SmallDB.select tn None (State o d) = (Ok (VList l), State o d)
              ∧ NoDup ks
              ∧ (∀ k, k ∈ ks ↔ is_Some (t !! k))
              ∧ Forall2 (λ k v, t !! k = Some v) ks l
              ∧ l ≡ₚ (map_to_list t).*2
  | None =>
      SmallDB.select tn None (State o d) = (Raise TableReferenceError, State o d)
  end.
Proof.
  unfold SmallDB.select. unfold_m. cbn [self].
  destruct (db_ref o !! tn) as [t|]; [|done].
  exists (map_to_list t).*1, (map_to_list t).*2. split; [done|].
  split; [apply NoDup_fst_map_to_list|]. split; [|split; [|done]].
  - intros k. rewrite list_elem_of_fmap. split.
    + intros ([k' v] & -> & Hin). exists v. by apply elem_of_map_to_list.
    + intros [v Hv]. exists (k, v). split; [done|]. by apply elem_of_map_to_list.
  - apply values_along_keys. intros [k v] Hin. by apply elem_of_map_to_list.
Qed.

(** [keys] on a staged table returns its keys, each once; on a table
    that is not staged it raises [TableReferenceError].  [tables] returns the
    names of the staged tables, each once.  Neither changes anything. *)
Lemma keys_tables_spec (o : object) (d : gmap string file) (tn : string) :
  match db_ref o !! tn with
  | Some t =>
      ∃ l, SmallDB.keys tn (State o d) = (Ok l, State o d)
           ∧ NoDup l ∧ ∀ k, k ∈ l ↔ is_Some (t !! k)
  | None => SmallDB.keys tn (State o d) = (Raise TableReferenceError, State o d)
  end
  ∧ ∃ l, SmallDB.tables (State o d) = (Ok l, State o d)
         ∧ NoDup l ∧ ∀ n, n ∈ l ↔ is_Some (db_ref o !! n).
Proof.
  split.
  - unfold SmallDB.keys. unfold_m. cbn [self].
    destruct (db_ref o !! tn) as [t|]; [|done].
    eexists. split; [done|]. split; [apply NoDup_elements|].
    intros k. by rewrite elem_of_elements, elem_of_dom.
  - unfold SmallDB.tables. unfold_m. cbn [self].
    eexists. split; [done|]. split; [apply NoDup_elements|].
    intros k. by rewrite elem_of_elements, elem_of_dom.
Qed.

(** X10: the three listings agree with the staging area and change
    nothing.  On a staged table [select] without a key returns the objects
    of the table, one for each key and in the order of some list of the keys
    that has each key once: the objects stored, as many times as they are
    stored and no others, in an order that is left open.  [keys] returns
    the keys, each once; on a table that is not staged both raise
    [TableReferenceError].  [tables] returns the names of the staged tables,
    each once. *)
Theorem listings_spec (o : object) (d : gmap string file) (tn : string) :
  match db_ref o !! tn with
  | Some t =>
      (∃ ks l, SmallDB.select tn None (State o d) = (Ok (VList l), State o d)
               ∧ NoDup ks
               ∧ (∀ k, k ∈ ks ↔ is_Some (t !! k))
               ∧ Forall2 (λ k v, t !! k = Some v) ks l
               ∧ l ≡ₚ (map_to_list t).*2)
      ∧ ∃ l, SmallDB.keys tn (State o d) = (Ok l, State o d)
             ∧ NoDup l ∧ ∀ k, k ∈ l ↔ is_Some (t !! k)
  | None =>
      SmallDB.select tn None (State o d) = (Raise TableReferenceError, State o d)
      ∧ SmallDB.keys tn (State o d) = (Raise TableReferenceError, State o d)
  end
  ∧ ∃ l, SmallDB.tables (State o d) = (Ok l, State o d)
         ∧ NoDup l ∧ ∀ n, n ∈ l ↔ is_Some (db_ref o !! n).
Proof.
  pose proof (select_all_spec o d tn) as Hsel.
  destruct (keys_tables_spec o d tn) as [Hkeys Htables].
  split; [|done]. by destruct (db_ref o !! tn).
Qed.

(** * Constructing *)

Lemma init_bad_mode open_ dbf m st :
  m ≠ "ro" → m ≠ "rw" →
  SmallDB.__init__ open_ dbf m st = (Raise DBInitializationError, st).
Proof.
  intros Hro Hrw. unfold SmallDB.__init__.
  rewrite !bool_decide_true by done. cbn [andb]. by unfold bind, raise.
Qed.

(** X11: a mode other than ['ro'] and ['rw'] is refused by both classes
    with [DBInitializationError] before anything is opened: the disk is as it
    was, also when the path holds nothing yet. *)
Theorem invalid_mode_rejected (dbf : option string) (m : string) (o : object)
    (d : gmap string file) :
  m ≠ "ro" → m ≠ "rw" →
  SmallDB.new dbf m (State o d) = (Raise DBInitializationError, State o d)
  ∧ MemDB.new dbf m (State o d) = (Raise DBInitializationError, State o d).
Proof.
  intros Hro Hrw.
  unfold SmallDB.new, MemDB.new, MemDB.__init__, construct. cbn [self disk].
  by rewrite !init_bad_mode.
Qed.

Lemma invalid_mode_rejected_witness :
  SmallDB.new (Some "g") "w" (boot demo_disk)
    = (Raise DBInitializationError, boot demo_disk)
  ∧ MemDB.new (Some "g") "w" (boot demo_disk)
    = (Raise DBInitializationError, boot demo_disk).
Proof.
  refine (invalid_mode_rejected (Some "g") "w" blank demo_disk _ _); discriminate.
Defined.

Lemma bind_raise {A B} (m : M A) (k : A → M B) st e st' :
  m st = (Raise e, st') → bind m k st = (Raise e, st').
Proof. intros H. unfold bind. by rewrite H. Qed.

Lemma open_garbage o d f :
  d !! f = Some NotAShelf →
  shelve.open f (State o d) = (Raise DbmError, State o d).
Proof. intros H. unfold shelve.open. unfold_m. cbn [disk]. by rewrite H. Qed.

Lemma SmallDB_open_garbage o d f :
  dbfile o = Some f → d !! f = Some NotAShelf →
  SmallDB.__open__ (State o d) = (Raise DBInitializationError, State o d).
Proof.
  intros Hf Hd. unfold SmallDB.__open__.
  unfold bind at 1, get at 1. cbn [self]. rewrite Hf.
  unfold bind at 1, try_except.
  by rewrite (bind_raise _ _ _ _ _ (open_garbage _ _ _ Hd)).
Qed.

(** X12: a path that holds something other than a shelf cannot be opened:
    both classes raise [DBInitializationError] in every mode, hand over no
    instance and leave the disk as it was. *)
Theorem not_a_shelf_rejected (f m : string) (o : object) (d : gmap string file) :
  d !! f = Some NotAShelf →
  SmallDB.new (Some f) m (State o d) = (Raise DBInitializationError, State o d)
  ∧ MemDB.new (Some f) m (State o d) = (Raise DBInitializationError, State o d).
Proof.
  intros Hd.
  destruct (decide (m = "ro" ∨ m = "rw")) as [Hm|Hm].
  - assert ((if bool_decide (m ≠ "ro") && bool_decide (m ≠ "rw")
             then raise DBInitializationError
             else modify_self (set_mode m)) (State blank d)
            = (Ok tt, State (set_mode m blank) d)) as Hmode.
    { by destruct Hm as [-> | ->]. }
    unfold SmallDB.new, MemDB.new, MemDB.__init__, construct, SmallDB.__init__.
    cbn [self disk]. split.
    + erewrite bind_ok by (by apply Hmode).
      unfold bind at 1, modify_self at 1. cbn [self disk].
      by rewrite (SmallDB_open_garbage _ _ f).
    + erewrite bind_ok by (by apply Hmode).
      unfold bind at 1, modify_self at 1. cbn [self disk].
      unfold MemDB.__open__. unfold bind at 1.
      unfold bind at 1, get at 1. cbn [self dbfile set_dbfile].
      unfold bind at 1, SmallDB.new, construct, SmallDB.__init__.
      cbn [self disk bool_decide].
      replace (bool_decide ("rw" ≠ "ro") && bool_decide ("rw" ≠ "rw"))
        with false by done.
      unfold bind at 1, modify_self at 1. cbn [self disk].
      unfold bind at 1, modify_self at 1. cbn [self disk].
      by rewrite (SmallDB_open_garbage _ _ f).
  - unfold SmallDB.new, MemDB.new, MemDB.__init__, construct. cbn [self disk].
    by rewrite !init_bad_mode by (intros ->; apply Hm; auto).
Qed.

Lemma not_a_shelf_rejected_witness :
  SmallDB.new (Some "notes.txt") "rw" (boot {["notes.txt" := NotAShelf]})
    = (Raise DBInitializationError, boot {["notes.txt" := NotAShelf]})
  ∧ MemDB.new (Some "notes.txt") "rw" (boot {["notes.txt" := NotAShelf]})
    = (Raise DBInitializationError, boot {["notes.txt" := NotAShelf]}).
Proof.
  exact (not_a_shelf_rejected "notes.txt" "rw" blank {["notes.txt" := NotAShelf]}
           eq_refl).
Defined.

(** X13: opening a path that holds a shelf, or nothing, loads every table
    of the shelf into the staging area and starts with an empty log, in
    either mode; a path that held nothing now holds an empty shelf, and a
    disk that had the shelf is as it was.  The read-write instance keeps the
    shelf open and the read-only one has closed it; [select] gives the same
    on both. *)
Theorem open_loads_shelf (f : string) (d : gmap string file)
    (T : gmap string (gmap string value)) (o0 : object) :
  shelf_at d f = Some T →
  SmallDB.new (Some f) "rw" (State o0 d)
    = (Ok (Object "rw" (Some f) (Some (Handle f false)) T ∅), State o0 (touch f d))
  ∧ SmallDB.new (Some f) "ro" (State o0 d)
    = (Ok (Object "ro" (Some f) (Some (Handle f true)) T ∅), State o0 (touch f d))
  ∧ touch f d = (if d !! f is Some _ then d else <[f := Shelf ∅]> d)
  ∧ ∀ tn key d',
      (SmallDB.select tn key
         (State (Object "ro" (Some f) (Some (Handle f true)) T ∅) d')).1
      = (SmallDB.select tn key
           (State (Object "rw" (Some f) (Some (Handle f false)) T ∅) d')).1.
Proof.
  intros HT. repeat split.
  - by rewrite (SmallDB_new_ok _ _ f "rw" T); auto.
  - by rewrite (SmallDB_new_ok _ _ f "ro" T); auto.
  - intros tn key d'. unfold SmallDB.select. unfold_m. cbn [self db_ref].
    destruct key as [k|]; destruct (T !! tn) as [t|]; try done.
    by destruct (t !! k).
Qed.

Lemma open_loads_shelf_witness :
  SmallDB.new (Some "f") "ro" (boot demo_disk)
    = (Ok (Object "ro" (Some "f") (Some (Handle "f" true)) {["users" := demo_users]} ∅),
       State blank (touch "f" demo_disk)).
Proof.
  exact (proj1 (proj2 (open_loads_shelf "f" demo_disk {["users" := demo_users]}
           blank eq_refl))).
Defined.

(** * save, whatever its outcome *)

(** [save] on an open read-write store, returning or not: the instance
    keeps everything but log entries, and the shelf holds under each name
    what it had, nothing, or what is staged. *)
Lemma save_any o d f T :
  mode o = "rw" →
  db o = Some (Handle f false) →
  d !! f = Some (Shelf T) →
  ∃ r L T', SmallDB.save (State o d) = (r, State (set_log L o) (<[f := Shelf T']> d))
            ∧ L ⊆ log o
            ∧ (r = Ok tt ∨ r = Raise KeyError)
            ∧ ∀ k, T' !! k = T !! k
                   ∨ (k ∈ log o ∧ (T' !! k = None ∨ T' !! k = db_ref o !! k)).
Proof.
  intros Hrw Hdb Hp. unfold SmallDB.save. enter_rw Hrw.
  rewrite (bind_ok _ _ _ _ _ (self_db_ok _ _ _ Hdb)).
  rewrite (bind_ok _ _ _ _ _ (keys_ok _ _ _ _ Hp)).
  erewrite bind_ok; cycle 1.
  { apply (prune_loop _ _ _ f T); try done.
    - apply NoDup_elements.
    - intros k Hk. apply elem_of_elements in Hk. by apply elem_of_dom. }
  unfold bind at 1, get at 1. cbn [self].
  set (L := log o ∖ pruned (elements (dom T)) o).
  destruct (decide (set_Forall (λ k, is_Some (db_ref o !! k)) L)) as [Hall|Hnot].
  - exists (Ok tt), L. eexists.
    rewrite (write_loop _ _ _ f (without (pruned (elements (dom T)) o) T));
      cbn [db db_ref log set_log]; try done.
    + rewrite insert_insert_eq. split; [done|]. split; [set_solver|].
      split; [by left|]. intros k.
      rewrite lookup_union, lookup_within, lookup_without.
      rewrite list_to_set_elements_L.
      unfold pruned. rewrite list_to_set_elements_L.
      repeat case_decide.
      * right. split; [set_solver|]. right.
        destruct (Hall k) as [t Ht]; [done|]. by rewrite Ht.
      * right. split; [set_solver|]. right.
        destruct (Hall k) as [t Ht]; [done|]. rewrite Ht.
        by destruct (T !! k).
      * right. split; [set_solver|]. by left.
      * left. by rewrite (left_id_L None _).
    + by rewrite lookup_insert_eq.
    + intros k Hk. apply elem_of_elements in Hk. by apply Hall.
  - apply not_set_Forall_Exists in Hnot; [|apply _].
    destruct Hnot as (k0 & Hk0 & Hnone). cbn in Hnone.
    edestruct (write_loop_any (elements L) (set_log L o))
      as (r & T' & Hrun & HT'); [exact Hdb|by apply lookup_insert_eq|].
    edestruct (write_loop_KeyError (elements L) (set_log L o))
      as (d' & Hraise); [exact Hdb|by apply lookup_insert_eq| |].
    { exists k0. split; [by apply elem_of_elements|].
      cbn. by apply eq_None_not_Some. }
    exists r, L, T'. rewrite Hrun, insert_insert_eq.
    split; [done|]. split; [set_solver|]. split.
    { right. rewrite Hraise in Hrun. congruence. }
    intros k. destruct (HT' k) as [Hk|[Hk1 Hk2]].
    + rewrite Hk, lookup_without. unfold pruned.
      rewrite list_to_set_elements_L.
      case_decide; [|by left]. right. split; [set_solver|]. by left.
    + right. apply elem_of_elements in Hk1. split; [set_solver|]. by right.
Qed.

(** X14: [save] on an open read-write store returns or raises [KeyError],
    nothing else.  Either way it leaves the staging area, the mode, the path
    and the shelf handle of the instance as they were and adds nothing to the
    log; on the disk it touches only the shelf of the store, and there only
    tables whose names are logged. *)
Theorem save_touches_only_logged (o : object) (d : gmap string file) (f : string)
    (T : gmap string (gmap string value)) :
  mode o = "rw" →
  db o = Some (Handle f false) →
  d !! f = Some (Shelf T) →
  ((SmallDB.save (State o d)).1 = Ok tt
   ∨ (SmallDB.save (State o d)).1 = Raise KeyError)
  ∧ db_ref (self (SmallDB.save (State o d)).2) = db_ref o
  ∧ mode (self (SmallDB.save (State o d)).2) = mode o
  ∧ dbfile (self (SmallDB.save (State o d)).2) = dbfile o
  ∧ db (self (SmallDB.save (State o d)).2) = db o
  ∧ log (self (SmallDB.save (State o d)).2) ⊆ log o
  ∧ (∀ g, g ≠ f → disk (SmallDB.save (State o d)).2 !! g = d !! g)
  ∧ ∃ T', disk (SmallDB.save (State o d)).2 !! f = Some (Shelf T')
          ∧ ∀ k, k ∉ log o → T' !! k = T !! k.
Proof.
  intros Hrw Hdb Hp.
  destruct (save_any o d f T Hrw Hdb Hp) as (r & L & T' & -> & HL & Hr & HT').
  cbn [fst snd self disk db_ref mode dbfile db log set_log].
  repeat split; try done.
  - intros g Hg. by rewrite lookup_insert_ne.
  - exists T'. rewrite lookup_insert_eq. split; [done|].
    intros k Hk. by destruct (HT' k) as [?|[? _]].
Qed.

Lemma save_touches_only_logged_witness :
  db_ref (self (SmallDB.save (State demo_store demo_disk)).2) = db_ref demo_store.
Proof.
  exact (proj1 (proj2 (save_touches_only_logged demo_store demo_disk "f"
           {["users" := demo_users]} eq_refl eq_refl eq_refl))).
Defined.

(** X15: [save] on an open read-write store returns exactly when every
    logged name is staged or on the shelf.  It then leaves on the shelf, under
    each logged name, the staged table or nothing when none is staged, and
    under every other name what was there; the log keeps the names that are
    staged and loses the others. *)
Theorem save_commits (o : object) (d : gmap string file) (f : string)
    (T : gmap string (gmap string value)) :
  mode o = "rw" →
  db o = Some (Handle f false) →
  d !! f = Some (Shelf T) →
  ((SmallDB.save (State o d)).1 = Ok tt
   ↔ ∀ k, k ∈ log o → is_Some (db_ref o !! k) ∨ is_Some (T !! k))
  ∧ ((SmallDB.save (State o d)).1 = Ok tt →
     ∃ T', (SmallDB.save (State o d)).2
           = State (set_log (log o ∩ dom (db_ref o)) o) (<[f := Shelf T']> d)
           ∧ ∀ k, T' !! k = if decide (k ∈ log o) then db_ref o !! k else T !! k).
Proof.
  intros Hrw Hdb Hp.
  assert ((SmallDB.save (State o d)).1 = Ok tt
          ↔ ∀ k, k ∈ log o → k ∈ dom (db_ref o) ∨ k ∈ dom T) as Hiff.
  { rewrite <- (save_returns o d f T) by done. split.
    - destruct (SmallDB.save (State o d)) as [r st']. cbn. intros ->. eauto.
    - by intros (st' & ->). }
  split.
  - rewrite Hiff. by setoid_rewrite elem_of_dom.
  - intros Hok. pose proof (proj1 Hiff Hok) as Hlog.
    rewrite (save_ok _ _ f T) by done. eexists. split; [done|].
    intros k. apply lookup_committed.
Qed.

Lemma save_commits_witness :
  (SmallDB.save (State (stage "users" ∅ demo_store) demo_disk)).1 = Ok tt
  ↔ ∀ k, k ∈ log (stage "users" ∅ demo_store) →
         is_Some (db_ref (stage "users" ∅ demo_store) !! k)
         ∨ is_Some (({["users" := demo_users]} : gmap string (gmap string value)) !! k).
Proof.
  exact (proj1 (save_commits (stage "users" ∅ demo_store) demo_disk "f"
           {["users" := demo_users]} eq_refl eq_refl eq_refl)).
Defined.

(** X16: a [save] right after a [save] that returned returns too, and
    changes neither the instance nor the disk. *)
Theorem save_twice (o : object) (d : gmap string file) (f : string)
    (T : gmap string (gmap string value)) (st' : state) :
  mode o = "rw" →
  db o = Some (Handle f false) →
  d !! f = Some (Shelf T) →
  SmallDB.save (State o d) = (Ok tt, st') →
  SmallDB.save st' = (Ok tt, st').
Proof.
  intros Hrw Hdb Hp Hsave.
  assert (∀ k, k ∈ log o → k ∈ dom (db_ref o) ∨ k ∈ dom T) as Hlog.
  { apply (save_returns o d f T); eauto. }
  rewrite (save_ok _ _ f T) in Hsave by done. injection Hsave as <-.
  rewrite (save_ok _ _ f (committed o T)); try done.
  - rewrite insert_insert_eq, committed_idem. do 2 f_equal.
    unfold set_log. cbn. f_equal. set_solver.
  - by rewrite lookup_insert_eq.
  - intros k Hk. cbn in *. set_solver.
Qed.

Lemma save_twice_witness :
  SmallDB.save (SmallDB.save (State (stage "users" ∅ demo_store) demo_disk)).2
  = (Ok tt, (SmallDB.save (State (stage "users" ∅ demo_store) demo_disk)).2).
Proof.
  refine (save_twice (stage "users" ∅ demo_store) demo_disk "f"
            {["users" := demo_users]} _ eq_refl eq_refl eq_refl _).
  vm_compute. reflexivity.
Defined.

(** * Sessions on a shelf *)

Lemma demo_synced : synced "f" (State demo_store demo_disk).
Proof.
  repeat split; try done. exists {["users" := demo_users]}. split; [done|].
  by intros k _.
Qed.



(** [close] on a synced store returns exactly when every logged name is
    staged or on the shelf. *)
Lemma close_returns f o d T :
  synced f (State o d) →
  d !! f = Some (Shelf T) →
  (∃ st', SmallDB.close (State o d) = (Ok tt, st'))
  ↔ (∀ k, k ∈ log o → k ∈ dom (db_ref o) ∨ k ∈ dom T).
Proof.
  intros (Hrw & Hf & Hdb & T0 & Hp & Htr) HT. cbn [self disk] in *.
  destruct (decide (log o = ∅)) as [He|Hne].
  - split.
    + intros _ k Hk. rewrite He in Hk. set_solver.
    + intros _. eexists. by apply (close_clean _ _ (Handle f false)).
  - split.
    + intros (st' & Hclose). apply (save_returns o d f T); try done.
      rewrite close_saves_iff_dirty in Hclose. cbn [self] in Hclose.
      rewrite bool_decide_true in Hclose by done.
      unfold bind at 1 in Hclose.
      destruct (SmallDB.save (State o d)) as [[[]|e] st1]; [by eexists|done].
    + intros Hlog. eexists. by apply (close_dirty _ _ f T).
Qed.

(** When [close] returns on a synced store the shelf, now closed, holds
    the staging area, and a store opened on the path loads it. *)
Lemma close_reopen f o d o' d' m o0 :
  synced f (State o d) →
  SmallDB.close (State o d) = (Ok tt, State o' d') →
  m = "ro" ∨ m = "rw" →
  db o' = Some (Handle f true)
  ∧ db_ref o' = db_ref o
  ∧ SmallDB.new (Some f) m (State o0 d')
    = (Ok (Object m (Some f) (Some (Handle f (bool_decide (m = "ro")))) (db_ref o) ∅),
       State o0 d').
Proof.
  intros Hs Hclose Hm. pose proof Hs as (Hrw & Hf & Hdb & T & Hp & Htr).
  cbn [self disk] in *.
  destruct (decide (log o = ∅)) as [He|Hne].
  - rewrite (close_clean _ _ (Handle f false)) in Hclose by done.
    injection Hclose as <- <-. repeat split; try done.
    assert (db_ref o = T) as ->.
    { apply map_eq. intros k. apply Htr. rewrite He. set_solver. }
    rewrite (SmallDB_new_ok _ _ f m T); [|done|by unfold shelf_at; rewrite Hp].
    by rewrite (touch_present _ _ _ Hp).
  - rewrite close_saves_iff_dirty in Hclose. cbn [self] in Hclose.
    rewrite bool_decide_true in Hclose by done.
    unfold bind at 1 in Hclose.
    destruct (SmallDB.save (State o d)) as [[[]|e] [o1 d1]] eqn:Hsave; [|done].
    destruct (save_reopen f o d o1 d1 m o0 Hs Hsave Hm) as (Href & Hnew).
    assert (db o1 = Some (Handle f false)) as Hdb1.
    { pose proof (synced_save f _ Hs) as Hs1. rewrite Hsave in Hs1.
      by destruct Hs1 as (_ & _ & ? & _). }
    rewrite (bind_ok _ _ _ _ _ (self_db_ok _ _ _ Hdb1)) in Hclose.
    injection Hclose as <- <-. by repeat split.
Qed.

Lemma session_synced d f T cs :
  shelf_at d f = Some T → synced f (session f T d cs).
Proof.
  intros HT. apply synced_exec. repeat split; try done.
  exists T. split; [by apply touch_lookup|done].
Qed.

(** X18: the round trip of a session that ends with [close].  [SmallDB(f)]
    on a path that holds a shelf, or nothing, loads the shelf.  After any
    calls of the data-changing methods other than [drop] (which would open
    the path again beside the handle of the session), returning or not,
    [close] returns exactly when every logged name is staged or on the
    shelf; and when it returns the shelf handle is closed, the staging area
    is as the session left it, and a store opened on [f] afterwards,
    read-only or read-write, holds exactly that staging area. *)
Theorem session_roundtrip (d : gmap string file) (f : string)
    (T : gmap string (gmap string value)) (cs : list mutator) (o0 : object)
    (m : string) (o' : object) (d' : gmap string file) :
  shelf_at d f = Some T →
  Forall (λ c, reopens c = false) cs →
  m = "ro" ∨ m = "rw" →
  SmallDB.new (Some f) "rw" (State o0 d)
    = (Ok (Object "rw" (Some f) (Some (Handle f false)) T ∅), State o0 (touch f d))
  ∧ (∃ T1, disk (session f T d cs) !! f = Some (Shelf T1)
       ∧ ((∃ st', SmallDB.close (session f T d cs) = (Ok tt, st'))
          ↔ ∀ k, k ∈ log (self (session f T d cs)) →
                 k ∈ dom (db_ref (self (session f T d cs))) ∨ k ∈ dom T1))
  ∧ (SmallDB.close (session f T d cs) = (Ok tt, State o' d') →
     db o' = Some (Handle f true)
     ∧ db_ref o' = db_ref (self (session f T d cs))
     ∧ SmallDB.new (Some f) m (State o0 d')
       = (Ok (Object m (Some f) (Some (Handle f (bool_decide (m = "ro"))))
                (db_ref (self (session f T d cs))) ∅),
          State o0 d')).
Proof.
  intros HT _ Hm. split; [by apply SmallDB_new_ok; auto|].
  pose proof (session_synced d f T cs HT) as Hs.
  destruct (session f T d cs) as [o1 d1]. cbn [self disk]. split.
  - pose proof Hs as (_ & _ & _ & T1 & Hp & _). cbn [self disk] in Hp.
    exists T1. split; [done|]. by apply (close_returns f).
  - intros Hclose. by apply (close_reopen f o1 d1 o' d' m o0).
Qed.

Lemma session_roundtrip_witness :
  SmallDB.new (Some "f") "ro"
    (boot {["f" := Shelf {["users" := {["1" := VStr "bob"]}]}]})
  = (Ok (Object "ro" (Some "f") (Some (Handle "f" true))
           {["users" := {["1" := VStr "bob"]}]} ∅),
     boot {["f" := Shelf {["users" := {["1" := VStr "bob"]}]}]}).
Proof.
  pose proof (session_roundtrip ∅ "f" ∅
    [Insert "users" "1" (VStr "alice"); Save; Update "users" "1" (VStr "bob")]
    blank "ro"
    (Object "rw" (Some "f") (Some (Handle "f" true))
       {["users" := {["1" := VStr "bob"]}]} {["users"]})
    {["f" := Shelf {["users" := {["1" := VStr "bob"]}]}]}
    eq_refl) as H.
  destruct H as (_ & _ & H); [repeat constructor|by left|].
  destruct H as (_ & _ & H); [vm_compute; reflexivity|].
  etrans; [exact H|]. vm_compute. reflexivity.
Defined.

(** Calls on the staging area leave the disk, the mode, the path and the
    shelf handle alone. *)
Lemma exec_on_staging cs : ∀ o d,
  mode o = "rw" →
  Forall (λ c, on_staging c = true) cs →
  ∃ o', exec SmallDB_call cs (State o d) = State o' d
        ∧ mode o' = "rw" ∧ dbfile o' = dbfile o ∧ db o' = db o.
Proof.
  induction cs as [|c cs IH]; intros o d Hrw Hcs; [by eauto|].
  apply Forall_cons in Hcs as [Hc Hcs].
  unfold exec. cbn [foldl].
  destruct (on_staging_touched c o d Hrw Hc) as (o1 & -> & Ht).
  destruct (touched_frame _ _ Ht) as (Hm1 & Hf1 & Hdb1).
  destruct (IH o1 d) as (o' & Hex & Hm' & Hf' & Hdb'); [congruence|done|].
  exists o'. unfold exec in Hex. rewrite Hex. repeat split; congruence.
Qed.

(** X19: rollback of what was never committed.  After [SmallDB(f)] on a
    path that holds a shelf, or nothing, and any calls on the staging area,
    returning or not, with no [save] among them, [drop] returns: the staging
    area is again what the store loaded when it was opened, the log is
    empty, the shelf is open, and the disk is as the opening left it. *)
Theorem drop_discards_uncommitted (d : gmap string file) (f : string)
    (T : gmap string (gmap string value)) (cs : list mutator) (o0 : object) :
  shelf_at d f = Some T →
  Forall (λ c, on_staging c = true) cs →
  SmallDB.new (Some f) "rw" (State o0 d)
    = (Ok (Object "rw" (Some f) (Some (Handle f false)) T ∅), State o0 (touch f d))
  ∧ SmallDB_drop (session f T d cs)
    = (Ok tt, State (Object "rw" (Some f) (Some (Handle f false)) T ∅) (touch f d)).
Proof.
  intros HT Hcs. split; [by apply SmallDB_new_ok; auto|].
  unfold session.
  destruct (exec_on_staging cs (Object "rw" (Some f) (Some (Handle f false)) T ∅)
              (touch f d)) as (o' & -> & Hm' & Hf' & Hdb'); [done|done|].
  pose proof (touch_lookup _ _ _ HT) as Hp.
  rewrite (SmallDB_drop_ok _ _ f T); [|done|done|by unfold shelf_at; rewrite Hp].
  by rewrite (touch_present _ _ _ Hp).
Qed.

Lemma drop_discards_uncommitted_witness :
  SmallDB_drop
    (session "f" {["users" := demo_users]} demo_disk
       [Remove "users" "1"; CreateTable "tmp"; Insert "tmp" "k" (VInt 1);
        RemoveTable "users"])
  = (Ok tt, State demo_store demo_disk).
Proof.
  exact (proj2 (drop_discards_uncommitted demo_disk "f" {["users" := demo_users]}
           [Remove "users" "1"; CreateTable "tmp"; Insert "tmp" "k" (VInt 1);
            RemoveTable "users"] blank eq_refl
           ltac:(repeat constructor))).
Defined.

(** * close, and what follows it *)

(** X20: when [close] returns on a synced store, the shelf handle is
    closed, the staging area is as it was, and the disk holds it: a store
    opened on the path afterwards, in either mode, has the same staging
    area. *)
Theorem close_commits (f : string) (o : object) (d : gmap string file)
    (o' : object) (d' : gmap string file) (m : string) (o0 : object) :
  synced f (State o d) →
  SmallDB.close (State o d) = (Ok tt, State o' d') →
  m = "ro" ∨ m = "rw" →
  db o' = Some (Handle f true)
  ∧ db_ref o' = db_ref o
  ∧ SmallDB.new (Some f) m (State o0 d')
    = (Ok (Object m (Some f) (Some (Handle f (bool_decide (m = "ro")))) (db_ref o) ∅),
       State o0 d').
Proof.
  intros Hs Hclose Hm. pose proof Hs as (Hrw & Hf & Hdb & T & Hp & Htr).
  cbn [self disk] in *.
  destruct (decide (log o = ∅)) as [He|Hne].
  - rewrite (close_clean _ _ (Handle f false)) in Hclose by done.
    injection Hclose as <- <-. repeat split; try done.
    assert (db_ref o = T) as ->.
    { apply map_eq. intros k. apply Htr. rewrite He. set_solver. }
    rewrite (SmallDB_new_ok _ _ f m T); [|done|by unfold shelf_at; rewrite Hp].
    by rewrite (touch_present _ _ _ Hp).
  - rewrite close_saves_iff_dirty in Hclose. cbn [self] in Hclose.
    rewrite bool_decide_true in Hclose by done.
    unfold bind at 1 in Hclose.
    destruct (SmallDB.save (State o d)) as [[[]|e] [o1 d1]] eqn:Hsave; [|done].
    destruct (save_reopen f o d o1 d1 m o0 Hs Hsave Hm) as (Href & Hnew).
    assert (db o1 = Some (Handle f false)) as Hdb1.
    { pose proof (synced_save f _ Hs) as Hs1. rewrite Hsave in Hs1.
      by destruct Hs1 as (_ & _ & ? & _). }
    rewrite (bind_ok _ _ _ _ _ (self_db_ok _ _ _ Hdb1)) in Hclose.
    injection Hclose as <- <-. by repeat split.
Qed.

Lemma close_commits_witness :
  db (set_db (Some (Handle "f" true)) demo_store) = Some (Handle "f" true)
  ∧ db_ref (set_db (Some (Handle "f" true)) demo_store) = db_ref demo_store
  ∧ SmallDB.new (Some "f") "rw" (boot demo_disk)
    = (Ok (Object "rw" (Some "f") (Some (Handle "f" (bool_decide ("rw" = "ro"))))
             (db_ref demo_store) ∅),
       boot demo_disk).
Proof.
  refine (close_commits "f" demo_store demo_disk
            (set_db (Some (Handle "f" true)) demo_store) demo_disk "rw" blank
            demo_synced eq_refl _).
  by right.
Defined.

(** X21: on a read-write store whose shelf was closed, [save] raises the
    [ValueError] of the closed shelf and changes nothing; [close] returns
    without a change when the log is empty and raises that [ValueError] when
    it is not; [drop] opens the shelf again and loads it, so whatever was
    staged after the [close] is lost. *)
Theorem closed_store_calls (o : object) (d : gmap string file) (f : string)
    (T : gmap string (gmap string value)) :
  mode o = "rw" →
  dbfile o = Some f →
  db o = Some (Handle f true) →
  d !! f = Some (Shelf T) →
  SmallDB.save (State o d) = (Raise ValueError, State o d)
  ∧ SmallDB.close (State o d)
    = (if decide (log o = ∅) then (Ok tt, State o d)
       else (Raise ValueError, State o d))
  ∧ SmallDB_drop (State o d)
    = (Ok tt, State (Object "rw" (Some f) (Some (Handle f false)) T ∅) d).
Proof.
  intros Hrw Hf Hdb Hp.
  assert (SmallDB.save (State o d) = (Raise ValueError, State o d)) as Hsave.
  { unfold SmallDB.save. enter_rw Hrw.
    rewrite (bind_ok _ _ _ _ _ (self_db_ok _ _ _ Hdb)).
    by unfold shelve.keys, shelve.dict, bind, raise. }
  split; [done|]. split.
  - rewrite close_saves_iff_dirty. cbn [self]. case_decide as He.
    + rewrite bool_decide_false by (by intros []).
      unfold bind at 1, ret at 1.
      rewrite (bind_ok _ _ _ _ _ (self_db_ok _ _ _ Hdb)).
      unfold modify_self, shelve.close, set_db. cbn [self disk path].
      do 2 f_equal. destruct o. cbn in *. by rewrite Hdb.
    + rewrite bool_decide_true by done.
      by rewrite (bind_raise _ _ _ _ _ Hsave).
  - rewrite (SmallDB_drop_ok _ _ f T);
      [|done|done|by unfold shelf_at; rewrite Hp].
    by rewrite (touch_present _ _ _ Hp).
Qed.

Lemma closed_store_calls_witness :
  SmallDB.save (State demo_closed demo_disk)
  = (Raise ValueError, State demo_closed demo_disk).
Proof.
  exact (proj1 (closed_store_calls demo_closed demo_disk "f"
           {["users" := demo_users]} eq_refl eq_refl eq_refl eq_refl)).
Defined.

(** X22: a read-only instance is inert.  After any calls of the
    data-changing methods of either class neither the instance nor the
    disk has changed, and [close] on a [SmallDB] whose log is empty, as that
    of a read-only one is, returns and leaves the disk as it was. *)
Theorem read_only_session_inert (o : object) (d : gmap string file)
    (cs : list mutator) :
  mode o = "ro" →
  exec SmallDB_call cs (State o d) = State o d
  ∧ exec MemDB_call cs (State o d) = State o d
  ∧ ∀ h, db o = Some h → log o = ∅ →
         SmallDB.close (State o d)
         = (Ok tt, State (set_db (Some (shelve.close h)) o) d).
Proof.
  intros Hro. repeat split.
  - induction cs as [|c cs IH]; [done|].
    unfold exec in *. cbn [foldl]. by rewrite SmallDB_call_ro.
  - induction cs as [|c cs IH]; [done|].
    unfold exec in *. cbn [foldl].
    destruct (on_staging c) eqn:Hc.
    + rewrite MemDB_call_on_staging by done. by rewrite SmallDB_call_ro.
    + destruct c; try discriminate Hc; [done|].
      by rewrite MemDB_call_ro.
  - intros h Hdb Hlog. by apply close_clean.
Qed.

Lemma read_only_session_inert_witness :
  exec SmallDB_call [Insert "users" "2" (VStr "bob"); RemoveTable "users"; Save; Drop]
    (State (Object "ro" (Some "f") (Some (Handle "f" true)) {["users" := demo_users]} ∅)
           demo_disk)
  = State (Object "ro" (Some "f") (Some (Handle "f" true)) {["users" := demo_users]} ∅)
          demo_disk.
Proof.
  exact (proj1 (read_only_session_inert
           (Object "ro" (Some "f") (Some (Handle "f" true)) {["users" := demo_users]} ∅)
           demo_disk
           [Insert "users" "2" (VStr "bob"); RemoveTable "users"; Save; Drop]
           eq_refl)).
Defined.

(** * The memory store and the disk *)

Lemma MemDB_call_imported_disk f T c o d :
  imported f T (State o d) → disk (MemDB_call c (State o d)).2 = d.
Proof.
  intros (Hrw & Hf & Hdb & Hp & Htr). cbn [self disk] in *.
  destruct (on_staging c) eqn:Hc.
  - rewrite MemDB_call_on_staging by done.
    by destruct (on_staging_touched c o d Hrw Hc) as (o' & -> & Ht).
  - destruct c; try discriminate Hc; cbn [MemDB_call]; [done|].
    assert (shelf_at d f = Some T) as HT by (unfold shelf_at; by rewrite Hp).
    rewrite (MemDB_drop_source _ _ f T) by done.
    by rewrite (touch_present _ _ _ Hp).
Qed.

Lemma exec_imported_disk f T cs : ∀ st,
  imported f T st → disk (exec MemDB_call cs st) = disk st.
Proof.
  induction cs as [|c cs IH]; intros [o d] Hs; [done|].
  unfold exec in *. cbn [foldl].
  rewrite IH by (by apply MemDB_call_imported).
  by apply (MemDB_call_imported_disk f T).
Qed.

(** X23: a memory store never writes the disk on its own.  [MemDB(f)]
    copies the shelf at [f], creating an empty one when the path holds
    nothing, and keeps no handle on it; [MemDB()] does not touch the disk.
    After any calls of the data-changing methods, [save] and [drop]
    among them, the disk is what it was when the store was built. *)
Theorem MemDB_never_writes_disk (d : gmap string file) (f : string)
    (T : gmap string (gmap string value)) (cs : list mutator) (o0 : object) :
  shelf_at d f = Some T →
  MemDB.new (Some f) "rw" (State o0 d)
    = (Ok (Object "rw" (Some f) None T ∅), State o0 (touch f d))
  ∧ disk (exec MemDB_call cs (State (Object "rw" (Some f) None T ∅) (touch f d)))
    = touch f d
  ∧ MemDB.new None "rw" (State o0 d) = (Ok (Object "rw" None None ∅ ∅), State o0 d)
  ∧ disk (exec MemDB_call cs (State (Object "rw" None None ∅ ∅) d)) = d.
Proof.
  intros HT. repeat split.
  - by apply MemDB_new_source.
  - rewrite (exec_imported_disk f T); [done|].
    repeat split; try done. cbn. by apply touch_lookup.
  - destruct (exec_sourceless cs (Object "rw" None None ∅ ∅) d) as (o' & -> & _);
      [by repeat split|done].
Qed.

Lemma MemDB_never_writes_disk_witness :
  disk (exec MemDB_call
          [Insert "users" "2" (VStr "bob"); RemoveTable "users"; Save; Drop]
          (State (Object "rw" (Some "f") None {["users" := demo_users]} ∅)
                 (touch "f" demo_disk)))
  = touch "f" demo_disk.
Proof.
  exact (proj1 (proj2 (MemDB_never_writes_disk demo_disk "f" {["users" := demo_users]}
           [Insert "users" "2" (VStr "bob"); RemoveTable "users"; Save; Drop]
           blank eq_refl))).
Defined.

(** X24: [replicate_from_smalldb] has no mode guard and builds the instance
    anew in mode ['rw'].  Whatever the instance held and whatever its mode,
    read-only too, it ends read-write with the tables of the shelf at the
    given path and an empty log; without a path it imports its own source
    again, and without either it ends empty. *)
Theorem replicate_from_resets (o : object) (d : gmap string file) (f : string)
    (T : gmap string (gmap string value)) :
  shelf_at d f = Some T →
  MemDB.replicate_from_smalldb (Some f) (State o d)
    = (Ok tt, State (Object "rw" (Some f) (db o) T ∅) (touch f d))
  ∧ (dbfile o = Some f →
     MemDB.replicate_from_smalldb None (State o d)
     = (Ok tt, State (Object "rw" (Some f) (db o) T ∅) (touch f d)))
  ∧ (dbfile o = None →
     MemDB.replicate_from_smalldb None (State o d)
     = (Ok tt, State (Object "rw" None (db o) ∅ ∅) d)).
Proof.
  intros HT. repeat split.
  - unfold MemDB.replicate_from_smalldb. unfold bind at 1, get at 1.
    by rewrite (MemDB_init_ok _ _ f T).
  - intros Hf. unfold MemDB.replicate_from_smalldb. unfold bind at 1, get at 1.
    cbn [self]. rewrite Hf. by rewrite (MemDB_init_ok _ _ f T).
  - intros Hf. unfold MemDB.replicate_from_smalldb. unfold bind at 1, get at 1.
    cbn [self]. rewrite Hf.
    unfold MemDB.__init__, SmallDB.__init__.
    replace (bool_decide ("rw" ≠ "ro") && bool_decide ("rw" ≠ "rw")) with false by done.
    unfold bind at 1, modify_self at 1. cbn [self disk].
    unfold bind at 1, modify_self at 1. cbn [self disk].
    unfold MemDB.__open__. unfold bind at 1.
    unfold bind at 1, get at 1. cbn [self dbfile set_dbfile].
    done.
Qed.

Lemma replicate_from_resets_witness :
  MemDB.replicate_from_smalldb (Some "f")
      (State (Object "ro" None None {["old" := ∅]} ∅) demo_disk)
  = (Ok tt, State (Object "rw" (Some "f") None {["users" := demo_users]} ∅)
                  (touch "f" demo_disk)).
Proof.
  exact (proj1 (replicate_from_resets (Object "ro" None None {["old" := ∅]} ∅)
           demo_disk "f" {["users" := demo_users]} eq_refl)).
Defined.

Lemma bind_keeps_self {A B} (m : M A) (k : A → M B) :
  (∀ st, self (m st).2 = self st) →
  (∀ a st, self (k a st).2 = self st) →
  ∀ st, self (bind m k st).2 = self st.
Proof.
  intros Hm Hk st. unfold bind. specialize (Hm st).
  destruct (m st) as [[a|e] st1]; cbn in *; [|done].
  by rewrite Hk.
Qed.

Lemma construct_keeps_self init st : self (construct init st).2 = self st.
Proof.
  unfold construct. by destruct (init (State blank (disk st))) as [[a|e] st1].
Qed.

Lemma call_on_keeps_self {A} o (m : M A) st : self (call_on o m st).2 = self st.
Proof.
  unfold call_on. by destruct (m (State o (disk st))) as [[a|e] st1].
Qed.

(** X25: [replicate_to_smalldb] never changes the memory store it is
    called on, whether it returns or raises; with no target given and no
    source to fall back on it raises [DBInitializationError] and leaves the
    disk as it was. *)
Theorem replicate_to_keeps_self (dbf : option string) (st : state) :
  self (MemDB.replicate_to_smalldb dbf st).2 = self st
  ∧ (dbf = None → dbfile (self st) = None →
     MemDB.replicate_to_smalldb dbf st
     = (Raise DBInitializationError, State (self st) (disk st))).
Proof.
  split.
  - unfold MemDB.replicate_to_smalldb.
    apply bind_keeps_self; [done|]. intros st0 st1.
    apply bind_keeps_self.
    { intros st2. destruct dbf; apply construct_keeps_self. }
    intros smalldb st2.
    apply bind_keeps_self; [intros; apply call_on_keeps_self|].
    intros r st3.
    apply bind_keeps_self; [intros; apply call_on_keeps_self|done].
  - intros -> Hf. unfold MemDB.replicate_to_smalldb.
    unfold bind at 1, get at 1. rewrite Hf.
    unfold SmallDB.new, construct, SmallDB.__init__, SmallDB.__open__.
    unfold_m. by cbn [self disk dbfile set_dbfile set_mode bool_decide andb].
Qed.

Lemma replicate_to_keeps_self_witness :
  MemDB.replicate_to_smalldb None (State (Object "rw" None None ∅ ∅) demo_disk)
  = (Raise DBInitializationError, State (Object "rw" None None ∅ ∅) demo_disk).
Proof.
  exact (proj2 (replicate_to_keeps_self None
           (State (Object "rw" None None ∅ ∅) demo_disk)) eq_refl eq_refl).
Defined.

(** X26: the export merges into the target.  When the target path holds a
    shelf, or nothing, and every logged name is staged or on that shelf,
    [replicate_to_smalldb] returns and leaves on the target shelf, under each
    logged name, the staged table or nothing when none is staged, and under
    every other name what the target had: tables of the target that the log
    does not name survive, and staged tables that the log does not name are
    not written.  No other path of the disk is touched. *)
Theorem replicate_to_merges (o : object) (d : gmap string file) (f : string)
    (T : gmap string (gmap string value)) :
  shelf_at d f = Some T →
  (∀ k, k ∈ log o → k ∈ dom (db_ref o) ∨ k ∈ dom T) →
  ∃ T', MemDB.replicate_to_smalldb (Some f) (State o d)
        = (Ok tt, State o (<[f := Shelf T']> d))
        ∧ ∀ k, T' !! k = if decide (k ∈ log o) then db_ref o !! k else T !! k.
Proof.
  intros HT Hlog. exists (committed o T). split.
  - by apply replicate_to_ok.
  - intros k. apply lookup_committed.
Qed.

Lemma replicate_to_merges_witness :
  ∃ T', MemDB.replicate_to_smalldb (Some "f")
          (State (Object "rw" None None {["t" := ∅]} {["t"]}) demo_disk)
        = (Ok tt, State (Object "rw" None None {["t" := ∅]} {["t"]})
                        (<["f" := Shelf T']> demo_disk))
        ∧ ∀ k, T' !! k
               = if decide (k ∈ log (Object "rw" None None {["t" := ∅]} {["t"]}))
                 then db_ref (Object "rw" None None {["t" := ∅]} {["t"]}) !! k
                 else ({["users" := demo_users]} : gmap string (gmap string value)) !! k.
Proof.
  refine (replicate_to_merges (Object "rw" None None {["t" := ∅]} {["t"]})
            demo_disk "f" {["users" := demo_users]} eq_refl _).
  intros k Hk. left. cbn [log db_ref] in *.
  apply elem_of_singleton in Hk as ->.
  apply elem_of_dom. exists ∅. apply lookup_singleton_eq.
Defined.

(** X27: copying back.  A memory store built from the shelf at [f] is
    changed by any calls of the data-changing methods and exported without a
    target, that is to its source.  When every logged name is staged or on
    the source shelf, the export returns and leaves the staging area on the
    shelf, and a new memory store that imports [f] holds the staging area of
    the first. *)
Theorem export_to_source_roundtrip (d : gmap string file) (f : string)
    (T : gmap string (gmap string value)) (cs : list mutator) :
  d !! f = Some (Shelf T) →
  (∀ k, k ∈ log (self (exec MemDB_call cs (State (Object "rw" (Some f) None T ∅) d))) →
        k ∈ dom (db_ref (self (exec MemDB_call cs
                                 (State (Object "rw" (Some f) None T ∅) d))))
        ∨ k ∈ dom T) →
  MemDB.new (Some f) "rw" (boot d) = (Ok (Object "rw" (Some f) None T ∅), boot d)
  ∧ ∃ o1, exec MemDB_call cs (State (Object "rw" (Some f) None T ∅) d) = State o1 d
      ∧ MemDB.replicate_to_smalldb None (State o1 d)
        = (Ok tt, State o1 (<[f := Shelf (db_ref o1)]> d))
      ∧ script (MemDB.new None "rw") (MemDB.replicate_from_smalldb (Some f))
          (boot (<[f := Shelf (db_ref o1)]> d))
        = (Ok (Object "rw" (Some f) None (db_ref o1) ∅),
           boot (<[f := Shelf (db_ref o1)]> d)).
Proof.
  intros Hp Hlog.
  destruct (copy_back_roundtrip d f T cs blank Hp) as (o & Hnew & Hrt).
  assert (o = Object "rw" (Some f) None T ∅) as ->.
  { rewrite (MemDB_new_source _ _ f T) in Hnew
      by (unfold shelf_at; by rewrite Hp).
    by injection Hnew. }
  split; [done|].
  assert (disk (exec MemDB_call cs (State (Object "rw" (Some f) None T ∅) d)) = d)
    as Hd by (by apply (exec_imported_disk f T)).
  destruct (exec MemDB_call cs (State (Object "rw" (Some f) None T ∅) d))
    as [o1 d1] eqn:Hex.
  cbn [self disk] in *. subst d1. exists o1. split; [done|].
  by apply Hrt.
Qed.

Lemma export_to_source_roundtrip_witness :
  MemDB.new (Some "f") "rw" (boot demo_disk)
    = (Ok (Object "rw" (Some "f") None {["users" := demo_users]} ∅), boot demo_disk)
  ∧ ∃ o1, exec MemDB_call [Insert "users" "2" (VStr "bob")]
            (State (Object "rw" (Some "f") None {["users" := demo_users]} ∅) demo_disk)
          = State o1 demo_disk
      ∧ MemDB.replicate_to_smalldb None (State o1 demo_disk)
        = (Ok tt, State o1 (<["f" := Shelf (db_ref o1)]> demo_disk))
      ∧ script (MemDB.new None "rw") (MemDB.replicate_from_smalldb (Some "f"))
          (boot (<["f" := Shelf (db_ref o1)]> demo_disk))
        = (Ok (Object "rw" (Some "f") None (db_ref o1) ∅),
           boot (<["f" := Shelf (db_ref o1)]> demo_disk)).
Proof.
  refine (export_to_source_roundtrip demo_disk "f" {["users" := demo_users]}
            [Insert "users" "2" (VStr "bob")] eq_refl _).
  intros k Hk. right. vm_compute in Hk.
  assert (k = "users") as ->.
  { change (k ∈ ({["users"]} ∪ ∅ : gset string)) in Hk. set_solver. }
  apply elem_of_dom. eexists. apply lookup_singleton_eq.
Defined.

(** X28: exporting a memory store that never had a source to a path that
    holds nothing.  After any calls of the data-changing methods on
    [MemDB()], when every logged name is staged, the export returns and
    leaves the staging area on the new shelf, and a new memory store that
    imports the path holds the staging area of the first. *)
Theorem export_to_new_path_roundtrip (d : gmap string file) (f : string)
    (cs : list mutator) :
  d !! f = None →
  (∀ k, k ∈ log (self (exec MemDB_call cs (State (Object "rw" None None ∅ ∅) d))) →
        k ∈ dom (db_ref (self (exec MemDB_call cs
                                 (State (Object "rw" None None ∅ ∅) d))))) →
  ∃ o1, exec MemDB_call cs (State (Object "rw" None None ∅ ∅) d) = State o1 d
    ∧ MemDB.replicate_to_smalldb (Some f) (State o1 d)
      = (Ok tt, State o1 (<[f := Shelf (db_ref o1)]> d))
    ∧ script (MemDB.new None "rw") (MemDB.replicate_from_smalldb (Some f))
        (boot (<[f := Shelf (db_ref o1)]> d))
      = (Ok (Object "rw" (Some f) None (db_ref o1) ∅),
         boot (<[f := Shelf (db_ref o1)]> d)).
Proof.
  intros Hp Hlog.
  destruct (exec_sourceless cs (Object "rw" None None ∅ ∅) d) as (o1 & Hex & _);
    [by repeat split|].
  rewrite Hex in Hlog. cbn [self] in Hlog.
  exists o1. split; [done|]. by apply (new_path_roundtrip d f cs).
Qed.

Lemma export_to_new_path_roundtrip_witness :
  ∃ o1, exec MemDB_call [Insert "users" "2" (VStr "bob")]
          (State (Object "rw" None None ∅ ∅) demo_disk) = State o1 demo_disk
    ∧ MemDB.replicate_to_smalldb (Some "g") (State o1 demo_disk)
      = (Ok tt, State o1 (<["g" := Shelf (db_ref o1)]> demo_disk))
    ∧ script (MemDB.new None "rw") (MemDB.replicate_from_smalldb (Some "g"))
        (boot (<["g" := Shelf (db_ref o1)]> demo_disk))
      = (Ok (Object "rw" (Some "g") None (db_ref o1) ∅),
         boot (<["g" := Shelf (db_ref o1)]> demo_disk)).
Proof.
  refine (export_to_new_path_roundtrip demo_disk "g"
            [Insert "users" "2" (VStr "bob")] eq_refl _).
  intros k Hk. vm_compute in Hk.
  assert (k = "users") as ->.
  { change (k ∈ ({["users"]} ∪ ∅ : gset string)) in Hk. set_solver. }
  apply elem_of_dom. eexists. vm_compute. reflexivity.
Defined.

(** X9: on a read-write store a call that names a table and returns has
    the name of the table in the log, and no call on the staging area,
    returning or not, takes a name out of the log. *)
Theorem call_logs_its_table (c : mutator) (o : object) (d : gmap string file) :
  mode o = "rw" →
  on_staging c = true →
  log o ⊆ log (self (SmallDB_call c (State o d)).2)
  ∧ ∀ tn, table_of c = Some tn →
          (SmallDB_call c (State o d)).1 = Ok tt →
          tn ∈ log (self (SmallDB_call c (State o d)).2).
Proof.
  intros Hrw Hc. split.
  - destruct (on_staging_touched c o d Hrw Hc) as (o' & -> & Ht).
    by apply touched_log.
  - intros tn Htn Hok.
    destruct (SmallDB_call c (State o d)) as [r [o' d']] eqn:Hrun.
    cbn in Hok. subst r.
    by apply (returned_call_logs_table c o d o' d' tn).
Qed.

Lemma call_logs_its_table_witness :
  "users" ∈ log (self (SmallDB_call (Insert "users" "2" (VStr "bob"))
                         (State demo_store demo_disk)).2).
Proof.
  exact (proj2 (call_logs_its_table (Insert "users" "2" (VStr "bob"))
           demo_store demo_disk eq_refl eq_refl) "users" eq_refl eq_refl).
Defined.

(** * print_db *)

Section print_db_facts.

Variable str : value → string.

Lemma print_each_rows o d table t ks :
  db_ref o !! table = Some t →
  (∀ k, k ∈ ks → is_Some (t !! k)) →
  print_each ks
    (λ k, v ← SmallDB.select table (Some k); ret (row k (str v))) (State o d)
  = (Ok ((λ k, row k (from_option str "" (t !! k))) <$> ks), State o d).
Proof.
  intros Ht. induction ks as [|k ks IH]; intros Hin; [done|].
  cbn [print_each]. destruct (Hin k) as [v Hv]; [set_solver|].
  erewrite bind_ok; cycle 1.
  { erewrite bind_ok by (rewrite select_key, Ht, Hv; reflexivity). done. }
  rewrite (bind_ok _ _ _ _ _ (IH (λ k' Hk', Hin k' (list_elem_of_further _ _ _ Hk')))).
  unfold ret. cbn. by rewrite Hv.
Qed.

(** The rows of a staged table: one for each key, or the one asked for,
    or the line that says the key is not there. *)
Lemma print_rows_staged o d table t key :
  db_ref o !! table = Some t →
  print_rows str table key (State o d)
  = (Ok match key with
        | None => (λ k, row k (from_option str "" (t !! k))) <$> elements (dom t)
        | Some k =>
            match t !! k with
            | Some v => [row k (str v)]
            | None => ["No data was found"]
            end
        end, State o d).
Proof.
  intros Ht. destruct key as [k|]; cbn [print_rows].
  - unfold try_except, bind. rewrite select_key, Ht.
    by destruct (t !! k).
  - unfold bind at 1, get at 1. cbn [self]. rewrite Ht.
    apply print_each_rows; [done|].
    intros k Hk. apply elem_of_elements in Hk. by apply elem_of_dom.
Qed.

Lemma print_all_staged o d key ns :
  (∀ n, n ∈ ns → is_Some (db_ref o !! n)) →
  ∃ out, print_all ns
           (λ table, rows ← print_rows str table key;
                     ret (heading table ++ rows ++ [newline])%list) (State o d)
         = (Ok out, State o d).
Proof.
  induction ns as [|n ns IH]; intros Hin; [by eexists|].
  cbn [print_all]. destruct (Hin n) as [t Ht]; [set_solver|].
  destruct IH as [out Hout]; [intros; apply Hin; set_solver|].
  eexists. erewrite bind_ok; cycle 1.
  { erewrite bind_ok by (by apply print_rows_staged). done. }
  by rewrite (bind_ok _ _ _ _ _ Hout).
Qed.

(** X29: [print_db] never raises and changes neither the instance nor
    the disk, whatever table and key it is given, staged or not, and in
    either mode. *)
Theorem print_db_only_prints (table_name key : option string) (o : object)
    (d : gmap string file) :
  ∃ out, print_db str table_name key (State o d) = (Ok out, State o d).
Proof.
  destruct table_name as [tn|]; cbn [print_db].
  - unfold bind at 1, get at 1. cbn [self].
    destruct (db_ref o !! tn) as [t|] eqn:Ht; [|by eexists].
    eexists. by erewrite bind_ok by (by apply print_rows_staged).
  - unfold bind at 1, get at 1. cbn [self].
    apply print_all_staged. intros n Hn.
    apply elem_of_elements in Hn. by apply elem_of_dom.
Qed.

Lemma print_db_table_run tn key o d :
  print_db str (Some tn) key (State o d)
  = (Ok match db_ref o !! tn with
        | None => [tn ++ " not in Database."]
        | Some t =>
            (heading tn
             ++ match key with
                | None =>
                    (λ k, row k (from_option str "" (t !! k))) <$> elements (dom t)
                | Some k =>
                    match t !! k with
                    | Some v => [row k (str v)]
                    | None => ["No data was found"]
                    end
                end
             ++ [""])%list
        end, State o d).
Proof.
  cbn [print_db]. unfold bind at 1, get at 1. cbn [self].
  destruct (db_ref o !! tn) as [t|] eqn:Ht; [|done].
  by erewrite bind_ok by (by apply print_rows_staged).
Qed.

(** X30: what [print_db] prints for one table.  A table that is not
    staged gives the single line that says so.  A staged table gives the five
    heading lines, then the row of the key when one is given and the table
    has it, or ["No data was found"] when it lacks it, and an empty line at
    the end.  Without a key the rows between the heading and the empty line
    are one for each key of the table, each key once, in the order the dict
    is gone through, which is left open: six lines and one more for each
    key.  Nothing is changed. *)
Theorem print_db_one_table (tn : string) (key : option string) (o : object)
    (d : gmap string file) :
  match db_ref o !! tn, key with
  | None, _ =>
      print_db str (Some tn) key (State o d)
      = (Ok [tn ++ " not in Database."], State o d)
  | Some t, Some k =>
      print_db str (Some tn) key (State o d)
      = (Ok (heading tn
             ++ [match t !! k with
                 | Some v => row k (str v)
                 | None => "No data was found"
                 end]
             ++ [""])%list, State o d)
  | Some t, None =>
      ∃ ks rows,
        print_db str (Some tn) key (State o d)
        = (Ok (heading tn ++ rows ++ [""])%list, State o d)
        ∧ NoDup ks
        ∧ (∀ k, k ∈ ks ↔ is_Some (t !! k))
        ∧ Forall2 (λ k r, ∃ v, t !! k = Some v ∧ r = row k (str v)) ks rows
        ∧ length (heading tn ++ rows ++ [""])%list = (6 + size t)%nat
  end.
Proof.
  rewrite print_db_table_run.
  destruct (db_ref o !! tn) as [t|] eqn:Ht; [|done].
  destruct key as [k|]; [by destruct (t !! k)|].
  exists (elements (dom t)),
    ((λ k, row k (from_option str "" (t !! k))) <$> elements (dom t)).
  split; [done|]. split; [apply NoDup_elements|].
  split; [intros k; by rewrite elem_of_elements, elem_of_dom|]. split.
  - apply Forall2_fmap_r, Forall_Forall2_diag, Forall_forall.
    intros k Hk. apply elem_of_elements, elem_of_dom in Hk as [v Hv].
    exists v. by rewrite Hv.
  - rewrite !length_app, length_fmap. cbn [heading length].
    rewrite <- size_dom.
    change (size (dom t)) with (length (elements (dom t))). lia.
Qed.

(** [print_db] leaves the state as it found it. *)
Lemma print_db_state table_name key st :
  (print_db str table_name key st).2 = st.
Proof.
  destruct st as [o d].
  destruct table_name as [tn|]; cbn [print_db].
  - unfold bind at 1, get at 1. cbn [self].
    destruct (db_ref o !! tn) as [t|] eqn:Ht; [|done].
    by erewrite bind_ok by (by apply print_rows_staged).
  - unfold bind at 1, get at 1. cbn [self].
    destruct (print_all_staged o d key (elements (dom (db_ref o)))) as [out ->];
      [|done].
    intros n Hn. apply elem_of_elements in Hn. by apply elem_of_dom.
Qed.

End print_db_facts.

(** * drop on a memory store without a source *)

Section drop_without_source.

Variable str : value → string.

Lemma select_state tn key st : (SmallDB.select tn key st).2 = st.
Proof.
  unfold SmallDB.select. unfold_m.
  destruct key; destruct (db_ref (self st) !! tn) as [t|]; try done.
  by destruct (t !! _).
Qed.

Lemma keys_state tn st : (SmallDB.keys tn st).2 = st.
Proof.
  unfold SmallDB.keys. unfold_m. by destruct (db_ref (self st) !! tn).
Qed.

Lemma dropped_result_state {A} (m : M A) st :
  (m st).2 = st → ((_ ← m; ret tt) st).2 = st.
Proof. unfold bind, ret. by destruct (m st) as [[a|e] st1]. Qed.

Lemma replicate_to_self dbf st :
  self (MemDB.replicate_to_smalldb dbf st).2 = self st.
Proof.
  unfold MemDB.replicate_to_smalldb.
  apply bind_keeps_self; [done|]. intros st0 st1.
  apply bind_keeps_self.
  { intros st2. destruct dbf; apply construct_keeps_self. }
  intros smalldb st2.
  apply bind_keeps_self; [intros; apply call_on_keeps_self|].
  intros r st3.
  apply bind_keeps_self; [intros; apply call_on_keeps_self|done].
Qed.

Lemma replicate_from_no_source o d :
  dbfile o = None →
  MemDB.replicate_from_smalldb None (State o d)
  = (Ok tt, State (Object "rw" None (db o) ∅ ∅) d).
Proof.
  intros Hf. unfold MemDB.replicate_from_smalldb.
  unfold bind at 1, get at 1. cbn [self]. rewrite Hf.
  unfold MemDB.__init__, SmallDB.__init__.
  replace (bool_decide ("rw" ≠ "ro") && bool_decide ("rw" ≠ "rw")) with false by done.
  unfold bind at 1, modify_self at 1. cbn [self disk].
  unfold bind at 1, modify_self at 1. cbn [self disk].
  unfold MemDB.__open__. unfold bind at 1.
  unfold bind at 1, get at 1. cbn [self dbfile set_dbfile].
  done.
Qed.

(** No method but [replicate_from_smalldb] with a path gives a memory
    store a source, and none changes its mode. *)
Lemma MemDB_method_sourceless c o d :
  sourceless o → gives_source c = false →
  ∃ o' d', (MemDB_method str c (State o d)).2 = State o' d' ∧ sourceless o'.
Proof.
  intros Hs Hc. destruct c as [c|tn k|tn| |tn k| |dbf|dbf]; cbn [MemDB_method].
  - destruct (MemDB_call_sourceless c o d Hs) as (o' & Ho' & Hs'). eauto.
  - exists o, d. split; [|done]. apply dropped_result_state, select_state.
  - exists o, d. split; [|done]. apply dropped_result_state, keys_state.
  - by exists o, d.
  - exists o, d. split; [|done]. apply dropped_result_state, print_db_state.
  - by exists o, d.
  - destruct dbf as [f|]; [discriminate Hc|].
    destruct Hs as (Hrw & Hf & Hdb & Htr).
    rewrite replicate_from_no_source by done.
    eexists _, d. split; [done|]. rewrite Hdb. by repeat split.
  - pose proof (replicate_to_self dbf (State o d)) as Hself.
    destruct (MemDB.replicate_to_smalldb dbf (State o d)) as [r [o' d']].
    cbn [snd self] in *. subst o'. by exists o, d'.
Qed.

Lemma run_sourceless cs : ∀ o d,
  sourceless o → Forall (λ c, gives_source c = false) cs →
  ∃ o' d', run (MemDB_method str) cs (State o d) = State o' d' ∧ sourceless o'.
Proof.
  induction cs as [|c cs IH]; intros o d Hs Hcs; [by eauto|].
  apply Forall_cons in Hcs as [Hc Hcs].
  unfold run. cbn [foldl].
  destruct (MemDB_method_sourceless c o d Hs Hc) as (o1 & d1 & -> & Hs1).
  by apply IH.
Qed.

(** The condition on the source is needed: a store built without a source
    and then pointed at a shelf by [replicate_from_smalldb] keeps that
    source, and [drop] loads the shelf again. *)
Lemma drop_after_import_reloads :
  script (MemDB.new None "rw")
    (MemDB.replicate_from_smalldb (Some "f") ;;
     MemDB.remove_table "users" ;;
     MemDB.drop) (boot demo_disk)
  = (Ok (Object "rw" (Some "f") None {["users" := demo_users]} ∅), boot demo_disk).
Proof. vm_compute. reflexivity. Qed.

(** C10 (amended): a read-write memory store that has no source, built
    without one and given none since, is emptied by [drop].  [MemDB(None,
    'rw')] gives an empty store without a source; after any calls of any
    methods on it, returning or not, none of them [replicate_from_smalldb]
    with a path, the store is still read-write and without a source, and
    [drop] returns and leaves it with an empty staging area and an empty
    log, on the disk as it was.  The same holds of every state of a
    read-write memory store whose source is unset. *)
Theorem drop_empties_sourceless_MemDB (d : gmap string file) (cs : list method) :
  Forall (λ c, gives_source c = false) cs →
  MemDB.new None "rw" (boot d) = (Ok (Object "rw" None None ∅ ∅), boot d)
  ∧ mode (self (run (MemDB_method str) cs (State (Object "rw" None None ∅ ∅) d)))
    = "rw"
  ∧ dbfile (self (run (MemDB_method str) cs (State (Object "rw" None None ∅ ∅) d)))
    = None
  ∧ MemDB.drop (run (MemDB_method str) cs (State (Object "rw" None None ∅ ∅) d))
    = (Ok tt,
       State (Object "rw" None None ∅ ∅)
             (disk (run (MemDB_method str) cs (State (Object "rw" None None ∅ ∅) d))))
  ∧ ∀ (o : object) (d' : gmap string file),
      mode o = "rw" → dbfile o = None →
      MemDB.drop (State o d') = (Ok tt, State (Object "rw" None (db o) ∅ ∅) d').
Proof.
  intros Hcs. split; [done|].
  destruct (run_sourceless cs (Object "rw" None None ∅ ∅) d) as (o' & d' & -> & Hs);
    [done|done|].
  destruct Hs as (Hrw & Hf & Hdb & _). cbn [self disk].
  repeat split; try done.
  - rewrite MemDB_drop_ok by done. by rewrite Hdb.
  - intros o d1 Hrw1 Hf1. by apply MemDB_drop_ok.
Qed.

End drop_without_source.

Lemma drop_empties_sourceless_MemDB_witness :
  MemDB.drop
    (run (MemDB_method (λ _, "x"))
       [Mutate (Insert "users" "1" (VStr "alice"));
        Select "users" None; Keys "nowhere"; Tables; PrintDb None None;
        ReplicateTo (Some "g"); ReplicateTo None; Close;
        Mutate Save; Mutate Drop; ReplicateFrom None;
        Mutate (Insert "users" "2" (VStr "bob"))]
       (State (Object "rw" None None ∅ ∅) demo_disk))
  = (Ok tt,
     State (Object "rw" None None ∅ ∅)
           (<["g" := Shelf {["users" := {["1" := VStr "alice"]}]}]> demo_disk)).
Proof.
  etrans.
  - refine (proj1 (proj2 (proj2 (proj2 (drop_empties_sourceless_MemDB (λ _, "x")
      demo_disk
      [Mutate (Insert "users" "1" (VStr "alice"));
       Select "users" None; Keys "nowhere"; Tables; PrintDb None None;
       ReplicateTo (Some "g"); ReplicateTo None; Close;
       Mutate Save; Mutate Drop; ReplicateFrom None;
       Mutate (Insert "users" "2" (VStr "bob"))] _))))).
    repeat constructor.
  - vm_compute. reflexivity.
Defined.
